(** * WebRTC demo: signaling relay and perfect-negotiation engine

    A shallow embedding of the two programs of the repository:

    - the relay: a Koa websocket route keeping a [Set] of connected sockets
      and fanning every message out to the others;
    - the client: the React component [App], whose [onStartCall] sets up a
      websocket, a peer connection and the handlers that run the
      perfect-negotiation pattern, with [onDisconnect] and [onReaction].

    Line numbers are those of the source file that holds both.

    The browser objects (RTCPeerConnection, WebSocket, media tracks, the
    console) are not reimplemented.  Every call the program makes on them is
    recorded, in program order, in a list of [call]s; what the program reads
    back from them (signaling state, ICE state, local description, the
    settlement of a promise, the host's string comparison) is an input of
    the transition that reads it. *)

From Stdlib Require Import List String Ascii ZArith NArith Bool Lia.
From Stdlib.Strings Require Import Byte.
Import ListNotations.

Local Open Scope string_scope.
Local Open Scope list_scope.

(* ================================================================== *)
(** ** Participant ids and [String.prototype.localeCompare] *)
(* ================================================================== *)

Definition ParticipantId := string.

Module Collation.

(** [localeCompare] is a built-in of the host, and line 247 calls it with no
    locale argument: each peer compares by the collation of its own host's
    default locale.  A host's collation is given by its sort keys: two
    strings compare as their keys do, with result -1, 0 or 1.  So a string
    compares 0 with itself on every host, two distinct strings may compare
    0 when the host gives them one key, and two hosts need not agree. *)
Record Collator := {
  sortKey : string -> list N
}.

(** Lexicographic comparison of two sequences of weights; a proper prefix
    sorts first. *)
Fixpoint compareKeys (k1 k2 : list N) : comparison :=
  match k1, k2 with
  | [], [] => Eq
  | [], _ :: _ => Lt
  | _ :: _, [] => Gt
  | x :: k1', y :: k2' =>
      match N.compare x y with
      | Eq => compareKeys k1' k2'
      | c => c
      end
  end.

Definition localeCompare (host : Collator) (this that : string) : Z :=
  match compareKeys (sortKey host this) (sortKey host that) with
  | Lt => (-1)%Z
  | Eq => 0%Z
  | Gt => 1%Z
  end.

(** *** Two hosts, on ASCII strings

    The root collation, which an en-US host uses.  Control characters are
    ignored; the others are ordered white space, punctuation, symbols,
    the dollar sign, digits, letters, with letters compared without regard
    to case first (primary weights) and lower case before upper case to
    break ties (tertiary weights).  Bytes above 127 are outside what is
    modelled and are placed after the letters. *)

Definition between (lo hi n : N) : bool := ((lo <=? n) && (n <=? hi))%N.

Definition ignorable (n : N) : bool :=
  ((n <=? 8) || between 14 31 n || (n =? 127))%N.

(** The character codes in collation order: white space (tab, line feed,
    vertical tab, form feed, carriage return, space); punctuation, from the
    underscore and the hyphen to the percent sign; symbols, from the grave
    accent to the tilde; the dollar sign; the digits; the letters. *)
Definition order : list N :=
  [9; 10; 11; 12; 13; 32;
   95; 45; 44; 59; 58; 33; 63; 46; 39; 34; 40; 41; 91; 93; 123; 125; 64; 42;
   47; 92; 38; 35; 37;
   96; 94; 43; 60; 61; 62; 124; 126;
   36;
   48; 49; 50; 51; 52; 53; 54; 55; 56; 57;
   97; 98; 99; 100; 101; 102; 103; 104; 105; 106; 107; 108; 109; 110; 111;
   112; 113; 114; 115; 116; 117; 118; 119; 120; 121; 122]%N.

Fixpoint rank (n : N) (l : list N) (i : N) : option N :=
  match l with
  | [] => None
  | x :: l' => if (x =? n)%N then Some i else rank n l' (i + 1)%N
  end.

Definition is_upper (n : N) : bool := between 65 90 n.

Definition primary (c : ascii) : option N :=
  let n := N_of_ascii c in
  if ignorable n then None
  else if (128 <=? n)%N then Some (1000 + n)%N
  else rank (if is_upper n then n + 32 else n)%N order 1%N.

Definition tertiary (c : ascii) : N :=
  if is_upper (N_of_ascii c) then 2%N else 1%N.

(** The collation elements of a string: a primary and a tertiary weight for
    each character that is not ignored. *)
Fixpoint elements (s : string) : list (N * N) :=
  match s with
  | EmptyString => []
  | String c s' =>
      match primary c with
      | Some p => (p, tertiary c) :: elements s'
      | None => elements s'
      end
  end.

(** A sort key: the primary weights, a separator below every weight, the
    tertiary weights. *)
Definition key_of (els : list (N * N)) : list N :=
  map fst els ++ 0%N :: map snd els.

Definition en_US : Collator := {| sortKey := fun s => key_of (elements s) |}.

(** A Danish host: as the root collation, but the pair [aa] (also [Aa],
    [AA]) is one letter, sorted after [z], and upper case comes before lower
    case to break ties. *)
Definition is_aa (c1 c2 : ascii) : bool :=
  let n1 := N_of_ascii c1 in
  let n2 := N_of_ascii c2 in
  (((n1 =? 97) && (n2 =? 97)) || ((n1 =? 65) && ((n2 =? 97) || (n2 =? 65))))%N.

Definition danish_tertiary (c : ascii) : N :=
  if is_upper (N_of_ascii c) then 1%N else 3%N.

(** [AA], then [Aa], then [aa]. *)
Definition aa_tertiary (c1 c2 : ascii) : N :=
  if is_upper (N_of_ascii c1)
  then if is_upper (N_of_ascii c2) then 1%N else 2%N
  else 3%N.

Fixpoint danish_elements (s : string) : list (N * N) :=
  match s with
  | EmptyString => []
  | String c1 s1 =>
      match s1 with
      | String c2 s2 =>
          if is_aa c1 c2 then (200%N, aa_tertiary c1 c2) :: danish_elements s2
          else
            match primary c1 with
            | Some p => (p, danish_tertiary c1) :: danish_elements s1
            | None => danish_elements s1
            end
      | EmptyString =>
          match primary c1 with
          | Some p => [(p, danish_tertiary c1)]
          | None => []
          end
      end
  end.

Definition da_DK : Collator :=
  {| sortKey := fun s => key_of (danish_elements s) |}.

End Collation.

Export Collation.

(** [const polite = data.id.localeCompare(id) === 1;] where [data.id] is the
    id carried by the inbound envelope, [id] the local one, and the
    comparison that of the local host. *)
Definition polite (host : Collator) (data_id id : ParticipantId) : bool :=
  (localeCompare host data_id id =? 1)%Z.

(* ================================================================== *)
(** ** The relay *)
(* ================================================================== *)

Module Relay.

(** A connected socket ([ctx.websocket]) is identified by a number. *)
Definition WebSocket := nat.

(** The payload of a frame, as the ['message'] event delivers it. *)
Definition Buffer := list byte.

(** [const clients = new Set<WebSocket>()]: a JS [Set] keeps its members in
    insertion order and holds each at most once. *)
Definition Clients := list WebSocket.

Definition has (ws : WebSocket) (clients : Clients) : bool :=
  existsb (Nat.eqb ws) clients.

Definition add (ws : WebSocket) (clients : Clients) : Clients :=
  if has ws clients then clients else clients ++ [ws].

Definition delete (ws : WebSocket) (clients : Clients) : Clients :=
  filter (fun client => negb (Nat.eqb client ws)) clients.

(** What reaches the route: a new connection, and for a connected socket
    its ['close'] and ['message'] events. *)
Inductive event :=
| connection (ws : WebSocket)
| close (ws : WebSocket)
| message (ws : WebSocket) (message : Buffer).

(** [client.send(...)] with a string: a text frame. *)
Inductive call :=
| send (client : WebSocket) (data : string).

Section Route.

(** [Buffer.prototype.toString]: the bytes decoded as UTF-8, a built-in of
    the runtime.  It gives back the text of a text frame; bytes that are
    not valid UTF-8 come out replaced. *)
Variable toString : Buffer -> string.

(** [for (const client of clients) if (client !== ctx.websocket)
    client.send(message.toString())] *)
Definition broadcast (ws : WebSocket) (message : Buffer) (clients : Clients)
  : list call :=
  map (fun client => send client (toString message))
      (filter (fun client => negb (Nat.eqb client ws)) clients).

Definition step (clients : Clients) (ev : event) : Clients * list call :=
  match ev with
  | connection ws => (add ws clients, [])
  | close ws => (delete ws clients, [])
  | message ws data => (clients, broadcast ws data clients)
  end.

Fixpoint run (clients : Clients) (evs : list event) : Clients * list call :=
  match evs with
  | [] => (clients, [])
  | ev :: evs' =>
      let (clients1, out1) := step clients ev in
      let (clients2, out2) := run clients1 evs' in
      (clients2, out1 ++ out2)
  end.

End Route.

End Relay.

(* ================================================================== *)
(** ** The client: data *)
(* ================================================================== *)

Inductive RTCSdpType := offer | answer | pranswer | rollback.

Definition RTCSdpType_eqb (x y : RTCSdpType) : bool :=
  match x, y with
  | offer, offer | answer, answer | pranswer, pranswer | rollback, rollback => true
  | _, _ => false
  end.

(** A session description: its [type] and an opaque [sdp] blob. *)
Record RTCSessionDescription := {
  type : RTCSdpType;
  sdp : string
}.

(** [{ type: 'rollback' }] *)
Definition rollback_description : RTCSessionDescription :=
  {| type := rollback; sdp := "" |}.

(** An opaque ICE candidate. *)
Definition RTCIceCandidate := string.

(** The parsed signaling message: [{ id, description }] or [{ id, candidate }].
    A field that is absent or [null] is [None]. *)
Record SignalingData := {
  data_id : ParticipantId;
  data_description : option RTCSessionDescription;
  data_candidate : option RTCIceCandidate
}.

Inductive RTCSignalingState :=
| stable | have_local_offer | have_remote_offer
| have_local_pranswer | have_remote_pranswer | signaling_closed.

Definition is_stable (s : RTCSignalingState) : bool :=
  match s with stable => true | _ => false end.

Inductive RTCIceConnectionState :=
| ice_new | checking | connected | completed | failed | disconnected | ice_closed.

Definition is_failed (s : RTCIceConnectionState) : bool :=
  match s with failed => true | _ => false end.

Definition is_disconnected (s : RTCIceConnectionState) : bool :=
  match s with disconnected => true | _ => false end.

Inductive CallStatus := idle | calling | in_progress.

(** Browser objects are identified by numbers. *)
Definition Handle := nat.

(** The objects captured by the closure stored in [disposeRef.current]. *)
Record Dispose := {
  webSocket : Handle;
  peerConnection : Handle;
  localStream : list Handle     (* localStream.getTracks() *)
}.

(** Statements of the synchronous tail of [onStartCall] that can throw. *)
Inductive SetupStep :=
| at_RTCPeerConnection
| at_createDataChannel
| at_addTrack (k : nat).        (* the call for the k-th track *)

(** What the program reads from the platform during one transition. *)
Record Platform := {
  collator : Collator;                         (* the host's localeCompare *)
  signalingState : RTCSignalingState;          (* peerConnection.signalingState *)
  iceConnectionState : RTCIceConnectionState;  (* peerConnection.iceConnectionState *)
  localDescription : option RTCSessionDescription; (* peerConnection.localDescription *)
  candidate_throws : bool;       (* new RTCIceCandidate(data.candidate) throws *)
  new_peerConnection : Handle;   (* the object new RTCPeerConnection(...) returns *)
  new_dataChannel : Handle;      (* the object createDataChannel(...) returns *)
  setup_throws : option SetupStep
}.

(** Every call the program makes on the platform. *)
Inductive call :=
| new_WebSocket
| getUserMedia
| new_RTCPeerConnection
| createDataChannel (label : string)
| addTrack (track : Handle)
| createOffer
| createAnswer
| setLocalDescription (d : RTCSessionDescription)
| setRemoteDescription (d : RTCSessionDescription)
| addIceCandidate (c : RTCIceCandidate)
| restartIce
| peerConnection_close (pc : Handle)
| webSocket_send (data : SignalingData)
| webSocket_close (ws : Handle)
| track_stop (track : Handle)
| dataChannel_send (dc : Handle) (reaction : string)
| audio_play (src : string)
| console_error.

(** An [async] function suspended at an [await], named by the promise it
    waits for.  [onmessage] keeps the parsed [data] of its invocation. *)
Inductive cont :=
| onStartCall_createSocket
| onStartCall_getUserMedia (ws : Handle)
| makeOffer_createOffer
| makeOffer_setLocalDescription
| onmessage_setRemoteDescription (data : SignalingData) (d : RTCSessionDescription)
| onmessage_createAnswer (data : SignalingData)
| onmessage_setLocalDescription (data : SignalingData)
| onmessage_addIceCandidate.

(** How an awaited promise settles. *)
Inductive value :=
| undefined
| a_description (d : RTCSessionDescription)
| a_socket (ws : Handle)
| a_stream (tracks : list Handle).

Inductive settlement :=
| fulfilled (v : value)
| rejected.

(** The component: React state, the two refs, the [let] variables of the
    call set up by [onStartCall], and its suspended [async] functions. *)
Record App := {
  status : CallStatus;
  reactions : list string;
  sendReactionRef : option Handle;   (* the closure over [dataChannel], or null *)
  disposeRef : option Dispose;       (* the dispose closure, or null *)
  makingOffer : bool;
  ignoreOffer : bool;
  suspended : list cont
}.

Definition initial : App :=
  {| status := idle; reactions := []; sendReactionRef := None;
     disposeRef := None; makingOffer := false; ignoreOffer := false;
     suspended := [] |}.

Definition set_status (s : CallStatus) (a : App) : App :=
  {| status := s; reactions := reactions a;
     sendReactionRef := sendReactionRef a; disposeRef := disposeRef a;
     makingOffer := makingOffer a; ignoreOffer := ignoreOffer a;
     suspended := suspended a |}.

Definition set_reactions (r : list string) (a : App) : App :=
  {| status := status a; reactions := r;
     sendReactionRef := sendReactionRef a; disposeRef := disposeRef a;
     makingOffer := makingOffer a; ignoreOffer := ignoreOffer a;
     suspended := suspended a |}.

Definition set_sendReactionRef (r : option Handle) (a : App) : App :=
  {| status := status a; reactions := reactions a;
     sendReactionRef := r; disposeRef := disposeRef a;
     makingOffer := makingOffer a; ignoreOffer := ignoreOffer a;
     suspended := suspended a |}.

Definition set_disposeRef (d : option Dispose) (a : App) : App :=
  {| status := status a; reactions := reactions a;
     sendReactionRef := sendReactionRef a; disposeRef := d;
     makingOffer := makingOffer a; ignoreOffer := ignoreOffer a;
     suspended := suspended a |}.

Definition set_makingOffer (b : bool) (a : App) : App :=
  {| status := status a; reactions := reactions a;
     sendReactionRef := sendReactionRef a; disposeRef := disposeRef a;
     makingOffer := b; ignoreOffer := ignoreOffer a;
     suspended := suspended a |}.

Definition set_ignoreOffer (b : bool) (a : App) : App :=
  {| status := status a; reactions := reactions a;
     sendReactionRef := sendReactionRef a; disposeRef := disposeRef a;
     makingOffer := makingOffer a; ignoreOffer := b;
     suspended := suspended a |}.

Definition set_suspended (l : list cont) (a : App) : App :=
  {| status := status a; reactions := reactions a;
     sendReactionRef := sendReactionRef a; disposeRef := disposeRef a;
     makingOffer := makingOffer a; ignoreOffer := ignoreOffer a;
     suspended := l |}.

(* ================================================================== *)
(** ** A monad for handlers: component state and the calls made *)
(* ================================================================== *)

Definition M (A : Type) : Type := App -> A * App * list call.

Definition ret {A : Type} (x : A) : M A := fun a => (x, a, []).

Definition bind {A B : Type} (m : M A) (k : A -> M B) : M B :=
  fun a =>
    let '(x, a1, out1) := m a in
    let '(y, a2, out2) := k x a1 in
    (y, a2, out1 ++ out2).

Declare Scope handler_scope.
Delimit Scope handler_scope with handler.

Notation "x <- m ;; k" := (bind m (fun x => k))
  (at level 61, m at next level, right associativity) : handler_scope.
Notation "m ;; k" := (bind m (fun _ => k))
  (at level 61, right associativity) : handler_scope.

Local Open Scope handler_scope.

Definition do (c : call) : M unit := fun a => (tt, a, [c]).
Definition read {A : Type} (f : App -> A) : M A := fun a => (f a, a, []).
Definition write (f : App -> App) : M unit := fun a => (tt, f a, []).
Definition skip : M unit := ret tt.

Fixpoint forEach {A : Type} (l : list A) (f : A -> M unit) : M unit :=
  match l with
  | [] => skip
  | x :: l' => f x ;; forEach l' f
  end.

(** State and calls of a handler that returns nothing. *)
Definition exec (m : M unit) (a : App) : App * list call :=
  let '(_, a', out) := m a in (a', out).

(* ================================================================== *)
(** ** The client: handlers *)
(* ================================================================== *)

(** Calling an [async] function runs it up to its first [await]; if it
    suspends there, its continuation joins the suspended ones. *)
Definition start (body : M (option cont)) : M unit :=
  k <- body ;;
  match k with
  | Some k' => write (fun a => set_suspended (suspended a ++ [k']) a)
  | None => skip
  end.

Section Client.

(** [const id = useRef(nanoid()).current;] *)
Variable id : ParticipantId.

(** The closure stored in [disposeRef.current] (lines 122-133). *)
Definition dispose (d : Dispose) : M unit :=
  do (webSocket_close (webSocket d)) ;;
  do (peerConnection_close (peerConnection d)) ;;
  forEach (localStream d) (fun track => do (track_stop track)) ;;
  write (set_sendReactionRef None) ;;
  write (set_disposeRef None).

(** [onDisconnect] (lines 312-324).  None of the calls in its [try] block
    throws, so its [catch] is not entered. *)
Definition onDisconnect : M unit :=
  do (audio_play "/alert-stop.mp3") ;;
  write (set_status idle) ;;
  write (set_reactions []) ;;
  current <- read disposeRef ;;
  match current with
  | Some d => dispose d
  | None => skip
  end.

(** [onReaction] (lines 329-331): [sendReactionRef.current?.(reaction)],
    the closure being [dataChannel.send(reaction)]. *)
Definition onReaction (reaction : string) : M unit :=
  current <- read sendReactionRef ;;
  match current with
  | Some dataChannel => do (dataChannel_send dataChannel reaction)
  | None => skip
  end.

(** [makeOffer] (lines 194-213), up to [await peerConnection.createOffer()]. *)
Definition makeOffer_body : M (option cont) :=
  write (set_makingOffer true) ;;
  do createOffer ;;
  ret (Some makeOffer_createOffer).

Definition makeOffer : M unit := start makeOffer_body.

(** [catch (error) { console.error(error); } finally { makingOffer = false; }] *)
Definition makeOffer_catch : M (option cont) :=
  do console_error ;;
  write (set_makingOffer false) ;;
  ret None.

Definition makeOffer_resume (pc : Platform) (k : cont) (r : settlement)
  : M (option cont) :=
  match k, r with
  | makeOffer_createOffer, fulfilled (a_description d) =>
      do (setLocalDescription d) ;;
      ret (Some makeOffer_setLocalDescription)
  | makeOffer_setLocalDescription, fulfilled _ =>
      do (webSocket_send {| data_id := id;
                            data_description := localDescription pc;
                            data_candidate := None |}) ;;
      write (set_makingOffer false) ;;
      ret None
  | _, rejected => makeOffer_catch
  | _, _ => ret (Some k)
  end.

(** [peerConnection.onnegotiationneeded] (lines 215-217). *)
Definition onnegotiationneeded : M unit := makeOffer.

(** [peerConnection.oniceconnectionstatechange] (lines 222-233). *)
Definition oniceconnectionstatechange (pc : Platform) : M unit :=
  (if is_failed (iceConnectionState pc) then do restartIce else skip) ;;
  (if is_disconnected (iceConnectionState pc) then onDisconnect else skip).

(** [peerConnection.onicecandidate] (lines 182-186). *)
Definition onicecandidate (candidate : option RTCIceCandidate) : M unit :=
  match candidate with
  | Some c =>
      do (webSocket_send {| data_id := id;
                            data_description := None;
                            data_candidate := Some c |})
  | None => skip
  end.

(** [peerConnection.ontrack] (lines 156-176). *)
Definition ontrack : M unit :=
  write (set_status in_progress) ;;
  do (audio_play "/alert-start.mp3").

(** [peerConnection.ondatachannel] with the [onmessage] it installs
    (lines 138-144). *)
Definition ondatachannel (label data : string) : M unit :=
  if String.eqb label "reactions"
  then write (fun a => set_reactions (reactions a ++ [data]) a)
  else skip.

(** [catch (error) { if (!ignoreOffer) console.error(error); }] (lines 295-299). *)
Definition addIceCandidate_catch : M (option cont) :=
  ignore <- read ignoreOffer ;;
  (if negb ignore then do console_error else skip) ;;
  ret None.

(** [if (data.candidate) { try { await addIceCandidate(...) } ... }]
    (lines 290-300). *)
Definition onmessage_candidate (pc : Platform) (data : SignalingData)
  : M (option cont) :=
  match data_candidate data with
  | Some c =>
      if candidate_throws pc then addIceCandidate_catch
      else
        do (addIceCandidate c) ;;
        ret (Some onmessage_addIceCandidate)
  | None => ret None
  end.

(** [webSocket.onmessage] (lines 238-301), up to its first [await]. *)
Definition onmessage (pc : Platform) (data : SignalingData) : M (option cont) :=
  match data_description data with
  | Some description =>
      let polite := polite (collator pc) (data_id data) id in
      making <- read makingOffer ;;
      let offerCollision :=
        RTCSdpType_eqb (type description) offer
        && (making || negb (is_stable (signalingState pc))) in
      write (set_ignoreOffer (negb polite && offerCollision)) ;;
      ignore <- read ignoreOffer ;;
      if ignore then
        (if negb making then makeOffer else skip) ;;
        ret None
      else
        (if offerCollision then
           do (setLocalDescription rollback_description) ;;
           do (setRemoteDescription description)
         else
           do (setRemoteDescription description)) ;;
        ret (Some (onmessage_setRemoteDescription data description))
  | None => onmessage_candidate pc data
  end.

(** The rest of [webSocket.onmessage], from the [await] it was suspended at.
    A rejection outside the [try] of line 291 ends the handler: nothing
    catches it. *)
Definition onmessage_resume (pc : Platform) (k : cont) (r : settlement)
  : M (option cont) :=
  match k, r with
  | onmessage_setRemoteDescription data description, fulfilled _ =>
      if RTCSdpType_eqb (type description) offer then
        do createAnswer ;;
        ret (Some (onmessage_createAnswer data))
      else onmessage_candidate pc data
  | onmessage_createAnswer data, fulfilled (a_description d) =>
      do (setLocalDescription d) ;;
      ret (Some (onmessage_setLocalDescription data))
  | onmessage_setLocalDescription data, fulfilled _ =>
      do (webSocket_send {| data_id := id;
                            data_description := localDescription pc;
                            data_candidate := None |}) ;;
      onmessage_candidate pc data
  | onmessage_addIceCandidate, fulfilled _ => ret None
  | onmessage_addIceCandidate, rejected => addIceCandidate_catch
  | _, rejected => ret None
  | _, _ => ret (Some k)
  end.

(** [catch (error) { console.error(error); onDisconnect(); }] (lines 302-306). *)
Definition onStartCall_catch : M (option cont) :=
  do console_error ;;
  onDisconnect ;;
  ret None.

(** [onStartCall] (lines 76-307), up to [await createSocket()]. *)
Definition onStartCall_body : M (option cont) :=
  write (set_status calling) ;;
  do new_WebSocket ;;
  ret (Some onStartCall_createSocket).

Definition onStartCall : M unit := start onStartCall_body.

(** Lines 149-151 and 178-301: the tracks are added, the handlers are
    installed and the two flags start out false. *)
Definition onStartCall_addTracks (pc : Platform) (tracks : list Handle)
  : M (option cont) :=
  match setup_throws pc with
  | Some (at_addTrack k) =>
      if Nat.ltb k (List.length tracks) then
        forEach (firstn (S k) tracks) (fun track => do (addTrack track)) ;;
        onStartCall_catch
      else
        forEach tracks (fun track => do (addTrack track)) ;;
        write (set_makingOffer false) ;;
        write (set_ignoreOffer false) ;;
        ret None
  | _ =>
      forEach tracks (fun track => do (addTrack track)) ;;
      write (set_makingOffer false) ;;
      write (set_ignoreOffer false) ;;
      ret None
  end.

(** Lines 99-301, after both [await]s of the setup. *)
Definition onStartCall_setup (pc : Platform) (ws : Handle) (tracks : list Handle)
  : M (option cont) :=
  do new_RTCPeerConnection ;;
  match setup_throws pc with
  | Some at_RTCPeerConnection => onStartCall_catch
  | thrown =>
      do (createDataChannel "reactions") ;;
      match thrown with
      | Some at_createDataChannel => onStartCall_catch
      | _ =>
          write (set_sendReactionRef (Some (new_dataChannel pc))) ;;
          write (set_disposeRef
                   (Some {| webSocket := ws;
                            peerConnection := new_peerConnection pc;
                            localStream := tracks |})) ;;
          onStartCall_addTracks pc tracks
      end
  end.

Definition onStartCall_resume (pc : Platform) (k : cont) (r : settlement)
  : M (option cont) :=
  match k, r with
  | onStartCall_createSocket, fulfilled (a_socket ws) =>
      do getUserMedia ;;
      ret (Some (onStartCall_getUserMedia ws))
  | onStartCall_getUserMedia ws, fulfilled (a_stream tracks) =>
      onStartCall_setup pc ws tracks
  | _, rejected => onStartCall_catch
  | _, _ => ret (Some k)
  end.

(** The continuation of a suspended function, by the function it belongs to. *)
Definition resume (pc : Platform) (k : cont) (r : settlement) : M (option cont) :=
  match k with
  | onStartCall_createSocket | onStartCall_getUserMedia _ =>
      onStartCall_resume pc k r
  | makeOffer_createOffer | makeOffer_setLocalDescription =>
      makeOffer_resume pc k r
  | _ => onmessage_resume pc k r
  end.

(** The [n]-th suspended function is replaced by its next suspension, or
    leaves the list when it has ended. *)
Definition splice (n : nat) (next : option cont) (a : App) : App :=
  set_suspended
    (firstn n (suspended a)
     ++ match next with Some k' => [k'] | None => [] end
     ++ skipn (S n) (suspended a)) a.

(** The promise awaited by the [n]-th suspended function settles: the
    function runs on to its next [await], where it stays suspended in the
    same place, or to its end. *)
Definition settle (pc : Platform) (n : nat) (r : settlement) : M unit :=
  tasks <- read suspended ;;
  match nth_error tasks n with
  | Some k =>
      next <- resume pc k r ;;
      write (splice n next)
  | None => skip
  end.

(** What happens to the component: the user's clicks, the events of the
    peer connection and of the socket, and the settlement of promises. *)
Inductive event :=
| click_StartCall
| click_EndCall
| click_reaction (reaction : string)
| negotiationneeded
| iceconnectionstatechange
| icecandidate (candidate : option RTCIceCandidate)
| track
| channel_message (label data : string)
| message (data : SignalingData)
| settled (n : nat) (r : settlement).

Definition handle (pc : Platform) (ev : event) : M unit :=
  match ev with
  | click_StartCall => onStartCall
  | click_EndCall => onDisconnect
  | click_reaction reaction => onReaction reaction
  | negotiationneeded => onnegotiationneeded
  | iceconnectionstatechange => oniceconnectionstatechange pc
  | icecandidate candidate => onicecandidate candidate
  | track => ontrack
  | channel_message label data => ondatachannel label data
  | message data => start (onmessage pc data)
  | settled n r => settle pc n r
  end.

Definition step (a : App) (pcev : Platform * event) : App * list call :=
  exec (handle (fst pcev) (snd pcev)) a.

Fixpoint run (a : App) (evs : list (Platform * event)) : App * list call :=
  match evs with
  | [] => (a, [])
  | ev :: evs' =>
      let (a1, out1) := step a ev in
      let (a2, out2) := run a1 evs' in
      (a2, out1 ++ out2)
  end.

(** The states the component can be in. *)
Inductive reachable : App -> Prop :=
| reachable_initial : reachable initial
| reachable_step (a : App) (pcev : Platform * event) :
    reachable a -> reachable (fst (step a pcev)).

End Client.

(** Envelopes that carry an offer, among the calls made. *)
Definition is_offer_envelope (c : call) : bool :=
  match c with
  | webSocket_send {| data_description := Some d |} => RTCSdpType_eqb (type d) offer
  | _ => false
  end.

Definition offers_sent (out : list call) : nat :=
  List.length (filter is_offer_envelope out).

(** Calls that release a resource of the call. *)
Definition is_release (c : call) : bool :=
  match c with
  | webSocket_close _ | peerConnection_close _ | track_stop _ => true
  | _ => false
  end.

Definition releases (out : list call) : list call := filter is_release out.

(** Suspended invocations of [makeOffer]. *)
Definition is_makeOffer (k : cont) : bool :=
  match k with
  | makeOffer_createOffer | makeOffer_setLocalDescription => true
  | _ => false
  end.

(** Suspended invocations of [onStartCall]. *)
Definition is_onStartCall (k : cont) : bool :=
  match k with
  | onStartCall_createSocket | onStartCall_getUserMedia _ => true
  | _ => false
  end.

Definition is_negotiationneeded (ev : event) : bool :=
  match ev with negotiationneeded => true | _ => false end.

Definition is_settled (ev : event) : bool :=
  match ev with settled _ _ => true | _ => false end.

Definition is_click_StartCall (ev : event) : bool :=
  match ev with click_StartCall => true | _ => false end.

(** How often [negotiationneeded] fires in a sequence of events. *)
Definition firings (evs : list (Platform * event)) : nat :=
  List.length (filter is_negotiationneeded (map snd evs)).

Arguments polite : simpl never.

(** Whether the promise settling as [r] makes the [try] block of the
    suspended [onStartCall] throw: a rejection, or a throwing statement in
    what follows [getUserMedia]. *)
Definition setup_fails (pc : Platform) (k : cont) (r : settlement) : bool :=
  match r with
  | rejected => true
  | fulfilled v =>
      match k, v with
      | onStartCall_getUserMedia _, a_stream tracks =>
          match setup_throws pc with
          | Some at_RTCPeerConnection | Some at_createDataChannel => true
          | Some (at_addTrack j) => Nat.ltb j (List.length tracks)
          | None => false
          end
      | _, _ => false
      end
  end.

(** The two refs go together: the closure in [sendReactionRef] is stored
    only along with the one in [disposeRef]. *)
Definition refs_ok (a : App) : bool :=
  match sendReactionRef a, disposeRef a with
  | Some _, None => false
  | _, _ => true
  end.

(** Without a click on "Start call", [sendReactionRef] stays null and no
    [onStartCall] is suspended. *)
Definition not_started (a : App) : Prop :=
  sendReactionRef a = None
  /\ forallb (fun k => negb (is_onStartCall k)) (suspended a) = true.

(* ================================================================== *)
(** ** Sample values for concrete runs *)
(* ================================================================== *)

Module Sample.

Definition platform : Platform :=
  {| collator := en_US;
     signalingState := stable;
     iceConnectionState := ice_new;
     localDescription := None;
     candidate_throws := false;
     new_peerConnection := 2;
     new_dataChannel := 3;
     setup_throws := None |}.

Definition signaling (s : RTCSignalingState) : Platform :=
  {| collator := en_US;
     signalingState := s;
     iceConnectionState := checking;
     localDescription := None;
     candidate_throws := false;
     new_peerConnection := 2;
     new_dataChannel := 3;
     setup_throws := None |}.

Definition ice (s : RTCIceConnectionState) : Platform :=
  {| collator := en_US;
     signalingState := stable;
     iceConnectionState := s;
     localDescription := None;
     candidate_throws := false;
     new_peerConnection := 2;
     new_dataChannel := 3;
     setup_throws := None |}.

(** The platform once [d] is the local description. *)
Definition described (s : RTCSignalingState) (d : RTCSessionDescription) : Platform :=
  {| collator := en_US;
     signalingState := s;
     iceConnectionState := checking;
     localDescription := Some d;
     candidate_throws := false;
     new_peerConnection := 2;
     new_dataChannel := 3;
     setup_throws := None |}.

Definition throwing (s : SetupStep) : Platform :=
  {| collator := en_US;
     signalingState := stable;
     iceConnectionState := ice_new;
     localDescription := None;
     candidate_throws := false;
     new_peerConnection := 2;
     new_dataChannel := 3;
     setup_throws := Some s |}.

Definition bad_candidate : Platform :=
  {| collator := en_US;
     signalingState := stable;
     iceConnectionState := checking;
     localDescription := None;
     candidate_throws := true;
     new_peerConnection := 2;
     new_dataChannel := 3;
     setup_throws := None |}.

(** A peer on a Danish host. *)
Definition danish (s : RTCSignalingState) : Platform :=
  {| collator := da_DK;
     signalingState := s;
     iceConnectionState := checking;
     localDescription := None;
     candidate_throws := false;
     new_peerConnection := 2;
     new_dataChannel := 3;
     setup_throws := None |}.

(** Two ids as [nanoid()] makes them: 21 characters of its alphabet. *)
Definition idA : ParticipantId := "aaV1StGXR8_Z5jdHi6B-m".
Definition idB : ParticipantId := "bbV1StGXR8_Z5jdHi6B-m".

(** [toString] on a frame of ASCII text, and such frames. *)
Definition text_of (message : Relay.Buffer) : string :=
  string_of_list_byte message.

Definition frame (text : string) : Relay.Buffer := list_byte_of_string text.

Definition offer1 : RTCSessionDescription := {| type := offer; sdp := "v=0 o=- 1" |}.
Definition offer2 : RTCSessionDescription := {| type := offer; sdp := "v=0 o=- 2" |}.
Definition answer1 : RTCSessionDescription := {| type := answer; sdp := "v=0 o=- 3" |}.

Definition description_from (sender : ParticipantId) (d : RTCSessionDescription)
  : SignalingData :=
  {| data_id := sender; data_description := Some d; data_candidate := None |}.

Definition candidate_from (sender : ParticipantId) (c : RTCIceCandidate)
  : SignalingData :=
  {| data_id := sender; data_description := None; data_candidate := Some c |}.

(** A call being set up: socket 1, tracks 10 and 11, peer connection 2 and
    data channel 3. *)
Definition setup : list (Platform * event) :=
  [(platform, click_StartCall);
   (platform, settled 0 (fulfilled (a_socket 1)));
   (platform, settled 0 (fulfilled (a_stream [10; 11])))].

(** [negotiationneeded] fires twice before [createOffer] of the first
    firing has resolved; every call on the peer connection succeeds. *)
Definition two_firings : list (Platform * event) :=
  [(platform, negotiationneeded);
   (platform, negotiationneeded);
   (platform, settled 0 (fulfilled (a_description offer1)));
   (described have_local_offer offer1, settled 0 (fulfilled undefined));
   (signaling have_local_offer, settled 0 (fulfilled (a_description offer2)));
   (described have_local_offer offer2, settled 0 (fulfilled undefined))].

(** The component once the call is set up. *)
Definition ready (id : ParticipantId) : App := fst (run id initial setup).

(** The component once it has sent its own offer. *)
Definition offered (id : ParticipantId) : App :=
  fst (run id (ready id)
         [(platform, negotiationneeded);
          (platform, settled 0 (fulfilled (a_description offer1)));
          (described have_local_offer offer1, settled 0 (fulfilled undefined))]).

End Sample.

(* ================================================================== *)
(** ** What is observed of the relay and of the component *)
(* ================================================================== *)

(** What the relay has sent to one socket, in the order it was sent. *)
Fixpoint received (client : Relay.WebSocket) (out : list Relay.call) : list string :=
  match out with
  | [] => []
  | Relay.send c data :: out' =>
      if Nat.eqb c client then data :: received client out'
      else received client out'
  end.

(** What the other sockets have sent, in the order the relay got it. *)
Fixpoint sent_by_others (client : Relay.WebSocket) (evs : list Relay.event)
  : list Relay.Buffer :=
  match evs with
  | [] => []
  | Relay.message ws payload :: evs' =>
      if Nat.eqb ws client then sent_by_others client evs'
      else payload :: sent_by_others client evs'
  | _ :: evs' => sent_by_others client evs'
  end.

Definition is_close_of (client : Relay.WebSocket) (ev : Relay.event) : bool :=
  match ev with
  | Relay.close ws => Nat.eqb ws client
  | _ => false
  end.

(** [makingOffer] is set only while an invocation of [makeOffer] is under
    way. *)
Definition offer_in_flight (a : App) : bool :=
  existsb is_makeOffer (suspended a).

Definition flag_ok (a : App) : bool :=
  implb (makingOffer a) (offer_in_flight a).

(** Suspended parts of [onmessage] that wait, outside any [try], for the
    description calls. *)
Definition is_description_await (k : cont) : bool :=
  match k with
  | onmessage_setRemoteDescription _ _
  | onmessage_createAnswer _
  | onmessage_setLocalDescription _ => true
  | _ => false
  end.

Definition is_track (ev : event) : bool :=
  match ev with track => true | _ => false end.

Definition is_channel_message (ev : event) : bool :=
  match ev with channel_message _ _ => true | _ => false end.

(** The data of the messages that came on a channel labelled "reactions". *)
Fixpoint reaction_data (evs : list (Platform * event)) : list string :=
  match evs with
  | [] => []
  | (_, channel_message label data) :: evs' =>
      if String.eqb label "reactions" then data :: reaction_data evs'
      else reaction_data evs'
  | _ :: evs' => reaction_data evs'
  end.

(** The events of a negotiation: what the peer connection and the socket
    deliver, and the settlements that resume [makeOffer] or [onmessage]. *)
Definition negotiation_event (a : App) (ev : event) : bool :=
  match ev with
  | negotiationneeded | icecandidate _ | message _ => true
  | settled n _ =>
      match nth_error (suspended a) n with
      | Some k => negb (is_onStartCall k)
      | None => true
      end
  | _ => false
  end.

(* ================================================================== *)
(** ** The client: what is rendered *)
(* ================================================================== *)

Inductive Variant := variant_primary | variant_danger.

Definition variant_name (v : Variant) : string :=
  match v with
  | variant_primary => "primary"
  | variant_danger => "danger"
  end.

(** The [<button>] element a [Button] renders; [onClick] is the event its
    click delivers to the component. *)
Record button := {
  disabled : bool;
  className : string;
  children : string;
  onClick : event
}.

(** What a screen shows, down to its interactive elements. *)
Inductive screen :=
| IdleScreen_view (title : string) (start : button)
| CallScreen_view
    (reaction_buttons : list (string * event))
    (end_call : button)
    (last_reaction : option (nat * string)).   (* key and text *)

(** [reactions[reactions.length - 1]], [undefined] on an empty array. *)
Definition lastReaction (reactions : list string) : option string :=
  match reactions with
  | [] => None
  | _ => nth_error reactions (List.length reactions - 1)
  end.

Definition emojis : list string := ["❤️"; "😆"; "😲"; "😢"; "😠"].

Section Render.

(** The class names of [Button.module.css]. *)
Variable styles : string -> string.

(** [Button]: [variant] defaults to ['primary'], an absent [loading] is
    falsy. *)
Definition Button (variant : option Variant) (loading : option bool)
  (children : string) (onClick : event) : button :=
  let variant := match variant with Some v => v | None => variant_primary end in
  let loading := match loading with Some b => b | None => false end in
  {| disabled := loading;
     className :=
       (styles "button" ++ " " ++ styles (variant_name variant) ++ " "
        ++ (if loading then styles "loading" else ""))%string;
     children := children;
     onClick := onClick |}.

(** [IdleScreen]; its [status] is ['idle'] or ['calling']. *)
Definition IdleScreen (status : CallStatus) : screen :=
  IdleScreen_view "Welcome!"
    (Button None
       (Some match status with calling => true | _ => false end)
       "Start call" click_StartCall).

(** [CallScreen]: the last reaction is shown when it is truthy. *)
Definition CallScreen (reactions : list string) : screen :=
  CallScreen_view
    (map (fun reaction => (reaction, click_reaction reaction)) emojis)
    (Button (Some variant_danger) None "End call" click_EndCall)
    match lastReaction reactions with
    | Some text =>
        if String.eqb text "" then None
        else Some (List.length reactions, text)
    | None => None
    end.

(** What [App] returns (lines 333-345). *)
Definition render (a : App) : screen :=
  match status a with
  | in_progress => CallScreen (reactions a)
  | s => IdleScreen s
  end.

(** The clicks the rendered screen offers. *)
Definition clickable (a : App) (ev : event) : bool :=
  match render a, ev with
  | IdleScreen_view _ start, click_StartCall => negb (disabled start)
  | CallScreen_view _ end_call _, click_EndCall => negb (disabled end_call)
  | CallScreen_view buttons _ _, click_reaction reaction =>
      existsb (fun b => String.eqb (fst b) reaction) buttons
  | _, _ => false
  end.

End Render.

(** A run in which [track] fires only on a peer connection the component
    holds (a closed or absent peer connection delivers no event). *)
Fixpoint track_while_held (id : ParticipantId) (a : App)
  (evs : list (Platform * event)) : bool :=
  match evs with
  | [] => true
  | ev :: evs' =>
      (if is_track (snd ev)
       then match disposeRef a with Some _ => true | None => false end
       else true)
      && track_while_held id (fst (step id a ev)) evs'
  end.

(** An envelope of this peer: it carries the peer's [id], and not both a
    description and a candidate. *)
Definition own_envelope (id : ParticipantId) (m : SignalingData) : Prop :=
  data_id m = id /\ (data_description m = None \/ data_candidate m = None).

(** Whether a dispose closure, with the resources of a call, is stored. *)
Definition held (a : App) : bool :=
  match disposeRef a with Some _ => true | None => false end.

(** While the call screen is up the resources of the call are held, and
    while they are held the send function is stored. *)
Definition call_held_ok (a : App) : bool :=
  match status a with in_progress => held a | _ => true end
  && (if held a
      then match sendReactionRef a with Some _ => true | None => false end
      else true).


(* ================================================================== *)
(** * Theorems *)
(* ================================================================== *)

(* ================================================================== *)
(** ** Properties of the collation *)
(* ================================================================== *)

Section CollationFacts.

Lemma compareKeys_refl (k : list N) : compareKeys k k = Eq.
Proof.
  induction k as [|x k IH]; [reflexivity|].
  simpl. now rewrite N.compare_refl.
Qed.

Lemma compareKeys_antisym (k1 k2 : list N) :
  compareKeys k2 k1 = CompOpp (compareKeys k1 k2).
Proof.
  revert k2; induction k1 as [|x k1 IH]; intros [|y k2]; simpl;
    try reflexivity.
  rewrite (N.compare_antisym x y).
  destruct (N.compare x y); simpl; auto.
Qed.

Variable host : Collator.

Lemma localeCompare_refl (s : string) : localeCompare host s s = 0%Z.
Proof. unfold localeCompare. now rewrite compareKeys_refl. Qed.

Lemma localeCompare_opp (s t : string) :
  localeCompare host t s = (- localeCompare host s t)%Z.
Proof.
  unfold localeCompare. rewrite compareKeys_antisym.
  destruct (compareKeys (sortKey host s) (sortKey host t)); reflexivity.
Qed.

Lemma localeCompare_range (s t : string) :
  localeCompare host s t = (-1)%Z
  \/ localeCompare host s t = 0%Z
  \/ localeCompare host s t = 1%Z.
Proof.
  unfold localeCompare.
  destruct (compareKeys (sortKey host s) (sortKey host t)); auto.
Qed.

Lemma polite_irrefl (id : ParticipantId) : polite host id id = false.
Proof. unfold polite. now rewrite localeCompare_refl. Qed.

(** On one host, two ids that do not compare as equal are ordered one way
    or the other: [polite] comes out true for exactly one direction. *)
Lemma polite_opposite (idA idB : ParticipantId) :
  localeCompare host idA idB <> 0%Z ->
  polite host idB idA = negb (polite host idA idB).
Proof.
  intros Hne. unfold polite. rewrite (localeCompare_opp idA idB).
  destruct (localeCompare_range idA idB) as [H|[H|H]]; rewrite H in *;
    try reflexivity.
  now contradiction Hne.
Qed.

End CollationFacts.

(* ================================================================== *)
(** ** Politeness *)
(* ================================================================== *)

Example polite_a_B : polite en_US "a" "B" = false.
Proof. reflexivity. Qed.

Example polite_B_a : polite en_US "B" "a" = true.
Proof. reflexivity. Qed.

Example polite_case : polite en_US "A" "a" = true.
Proof. reflexivity. Qed.

Example polite_prefix : polite en_US "ab" "a" = true.
Proof. reflexivity. Qed.

Example space_before_letters : localeCompare en_US " " "a" = (-1)%Z.
Proof. reflexivity. Qed.

Example tilde_before_letters : localeCompare en_US "~" "a" = (-1)%Z.
Proof. reflexivity. Qed.

Example control_character_ignored :
  localeCompare en_US (String "a" (String (ascii_of_nat 1) EmptyString)) "a"
  = 0%Z.
Proof. reflexivity. Qed.

Example aaa_before_bbb : localeCompare en_US "aaa" "bbb" = (-1)%Z.
Proof. reflexivity. Qed.

Example bbb_after_aaa : localeCompare en_US "bbb" "aaa" = 1%Z.
Proof. reflexivity. Qed.

Example danish_aaa_after_bbb : localeCompare da_DK "aaa" "bbb" = 1%Z.
Proof. reflexivity. Qed.

Example danish_single_a : localeCompare da_DK "ab" "bb" = (-1)%Z.
Proof. reflexivity. Qed.

Example danish_upper_first : localeCompare da_DK "A" "a" = (-1)%Z.
Proof. reflexivity. Qed.

Example ids_on_the_two_hosts :
  localeCompare en_US Sample.idA Sample.idB = (-1)%Z
  /\ localeCompare da_DK Sample.idA Sample.idB = 1%Z.
Proof. split; reflexivity. Qed.

(* ================================================================== *)
(** ** The relay: fan-out *)
(* ================================================================== *)

Section RelayFacts.

Import Relay.

Variable toString : Buffer -> string.



Lemma in_add (ws client : WebSocket) (clients : Clients) :
  In client (add ws clients) <-> client = ws \/ In client clients.
Proof.
  unfold add, has. destruct (existsb (Nat.eqb ws) clients) eqn:Hex.
  - split; [auto|]. intros [->|H]; [|assumption].
    apply existsb_exists in Hex as (c & Hin & Heq).
    apply Nat.eqb_eq in Heq. now subst.
  - rewrite in_app_iff. simpl. intuition.
Qed.

Lemma in_delete (ws client : WebSocket) (clients : Clients) :
  In client (delete ws clients) <-> In client clients /\ client <> ws.
Proof.
  unfold delete. rewrite filter_In, negb_true_iff, Nat.eqb_neq. reflexivity.
Qed.


End RelayFacts.

Example relay_three_clients :
  Relay.run Sample.text_of []
    [Relay.connection 1; Relay.connection 2; Relay.connection 3;
     Relay.message 2 (Sample.frame "offer"); Relay.close 3;
     Relay.message 1 (Sample.frame "answer")]
  = ([1; 2],
     [Relay.send 1 "offer"; Relay.send 3 "offer"; Relay.send 2 "answer"]).
Proof. reflexivity. Qed.




(* ================================================================== *)
(** ** Handlers: general facts *)
(* ================================================================== *)

Lemma forEach_do {A : Type} (f : A -> call) (l : list A) (a : App) :
  forEach l (fun x => do (f x)) a = (tt, a, map f l).
Proof.
  induction l as [|x l IH]; [reflexivity|].
  simpl. unfold bind. simpl. now rewrite IH.
Qed.

Lemma releases_app (l1 l2 : list call) :
  releases (l1 ++ l2) = releases l1 ++ releases l2.
Proof. apply filter_app. Qed.

Lemma releases_track_stop (tracks : list Handle) :
  releases (map track_stop tracks) = map track_stop tracks.
Proof.
  unfold releases.
  induction tracks as [|t tracks IH]; simpl; [reflexivity|].
  now rewrite IH.
Qed.

(* ================================================================== *)
(** ** Teardown *)
(* ================================================================== *)

Lemma exec_onDisconnect (a : App) :
  exec onDisconnect a =
  match disposeRef a with
  | Some d =>
      (set_disposeRef None
         (set_sendReactionRef None (set_reactions [] (set_status idle a))),
       audio_play "/alert-stop.mp3"
         :: webSocket_close (webSocket d)
         :: peerConnection_close (peerConnection d)
         :: map track_stop (localStream d))
  | None =>
      (set_reactions [] (set_status idle a), [audio_play "/alert-stop.mp3"])
  end.
Proof.
  unfold exec, onDisconnect, bind, read. simpl.
  destruct (disposeRef a) as [d|]; [|reflexivity].
  unfold dispose, bind. simpl.
  rewrite forEach_do. simpl. now rewrite app_nil_r.
Qed.

(** C8: [onDisconnect] run twice in a row, from any state of the component.
    The first run releases exactly what the stored dispose closure holds
    (socket, peer connection, each track), once, or nothing when no closure
    is stored, and leaves both refs empty; the second run releases nothing
    and leaves the state as the first run left it. *)
Theorem onDisconnect_idempotent (a : App) :
  let (a1, out1) := exec onDisconnect a in
  let (a2, out2) := exec onDisconnect a1 in
  releases out1 =
    match disposeRef a with
    | Some d =>
        webSocket_close (webSocket d)
          :: peerConnection_close (peerConnection d)
          :: map track_stop (localStream d)
    | None => []
    end
  /\ disposeRef a1 = None
  /\ status a1 = idle
  /\ releases out2 = []
  /\ a2 = a1.
Proof.
  rewrite exec_onDisconnect.
  destruct (disposeRef a) as [d|] eqn:Hd.
  - rewrite exec_onDisconnect. simpl.
    repeat split; try reflexivity.
    f_equal. f_equal. apply releases_track_stop.
  - rewrite exec_onDisconnect. simpl. rewrite Hd. simpl.
    repeat split; reflexivity.
Qed.

(* ================================================================== *)
(** ** Suspended functions *)
(* ================================================================== *)

Section Splice.

Context {A : Type}.

Lemma splice_length (l : list A) (n : nat) (k : A) (next : list A) :
  nth_error l n = Some k ->
  List.length (firstn n l ++ next ++ skipn (S n) l) + 1
  = List.length l + List.length next.
Proof.
  intros H. rewrite <- (firstn_skipn_middle n l H) at 3.
  rewrite !length_app. simpl. lia.
Qed.

Lemma forallb_firstn (p : A -> bool) (l : list A) (n : nat) :
  forallb p l = true -> forallb p (firstn n l) = true.
Proof.
  revert n; induction l as [|x l IH]; intros [|n]; simpl; auto.
  intros H. apply andb_true_iff in H as [Hx Hl].
  rewrite Hx. simpl. now apply IH.
Qed.

Lemma forallb_skipn (p : A -> bool) (l : list A) (n : nat) :
  forallb p l = true -> forallb p (skipn n l) = true.
Proof.
  revert n; induction l as [|x l IH]; intros [|n]; simpl; auto.
  intros H. apply andb_true_iff in H as [_ Hl]. now apply IH.
Qed.

Lemma splice_forallb (p : A -> bool) (l : list A) (n : nat) (next : list A) :
  forallb p l = true ->
  forallb p next = true ->
  forallb p (firstn n l ++ next ++ skipn (S n) l) = true.
Proof.
  intros Hl Hnext. rewrite !forallb_app, Hnext.
  now rewrite forallb_firstn, forallb_skipn.
Qed.

Lemma nth_error_last (l : list A) (k : A) :
  nth_error (l ++ [k]) (List.length l) = Some k.
Proof. rewrite nth_error_app2, Nat.sub_diag; [reflexivity | lia]. Qed.

Lemma firstn_last (l : list A) (k : A) :
  firstn (List.length l) (l ++ [k]) = l.
Proof.
  rewrite firstn_app, Nat.sub_diag, firstn_all. simpl. apply app_nil_r.
Qed.

Lemma skipn_last (l : list A) (k : A) :
  skipn (S (List.length l)) (l ++ [k]) = [].
Proof. apply skipn_all2. rewrite length_app. simpl. lia. Qed.

End Splice.

Section ClientFacts.

Variable id : ParticipantId.

Lemma exec_settle (pc : Platform) (n : nat) (r : settlement) (a : App) (k : cont) :
  nth_error (suspended a) n = Some k ->
  exec (settle id pc n r) a =
  let '(next, a', out) := resume id pc k r a in (splice n next a', out).
Proof.
  intros H. unfold exec, settle, bind, read. simpl. rewrite H.
  destruct (resume id pc k r a) as [[next a'] out]. simpl.
  now rewrite app_nil_r.
Qed.

Lemma exec_settle_none (pc : Platform) (n : nat) (r : settlement) (a : App) :
  nth_error (suspended a) n = None ->
  exec (settle id pc n r) a = (a, []).
Proof.
  intros H. unfold exec, settle, bind, read. simpl. now rewrite H.
Qed.

Lemma exec_makeOffer (a : App) :
  exec makeOffer a =
  (set_suspended (suspended a ++ [makeOffer_createOffer]) (set_makingOffer true a),
   [createOffer]).
Proof. reflexivity. Qed.

(** The first part of [onmessage] on an envelope that carries a description. *)
Lemma exec_onmessage_description
  (pc : Platform) (data : SignalingData) (d : RTCSessionDescription) (a : App) :
  data_description data = Some d ->
  exec (start (onmessage id pc data)) a =
  let offerCollision :=
    RTCSdpType_eqb (type d) offer
    && (makingOffer a || negb (is_stable (signalingState pc))) in
  if negb (polite (collator pc) (data_id data) id) && offerCollision then
    if makingOffer a then (set_ignoreOffer true a, [])
    else
      (set_suspended (suspended a ++ [makeOffer_createOffer])
         (set_makingOffer true (set_ignoreOffer true a)),
       [createOffer])
  else
    (set_suspended (suspended a ++ [onmessage_setRemoteDescription data d])
       (set_ignoreOffer false a),
     if offerCollision
     then [setLocalDescription rollback_description; setRemoteDescription d]
     else [setRemoteDescription d]).
Proof.
  intros Hd. unfold exec, start, onmessage, bind, read, write. rewrite Hd. simpl.
  destruct (negb (polite (collator pc) (data_id data) id)
            && (RTCSdpType_eqb (type d) offer
                && (makingOffer a || negb (is_stable (signalingState pc)))));
    simpl.
  - destruct (makingOffer a); reflexivity.
  - destruct (RTCSdpType_eqb (type d) offer
              && (makingOffer a || negb (is_stable (signalingState pc))));
      reflexivity.
Qed.

End ClientFacts.

(* ================================================================== *)
(** ** Inbound descriptions *)
(* ================================================================== *)

Section Negotiation.

Variable id : ParticipantId.

Lemma run_cons (a : App) (ev : Platform * event) (evs : list (Platform * event)) :
  run id a (ev :: evs) =
  (fst (run id (fst (step id a ev)) evs),
   snd (step id a ev) ++ snd (run id (fst (step id a ev)) evs)).
Proof.
  simpl. destruct (step id a ev) as [a1 out1].
  simpl. now destruct (run id a1 evs).
Qed.

Lemma step_message (pc : Platform) (data : SignalingData) (a : App) :
  step id a (pc, message data) = exec (start (onmessage id pc data)) a.
Proof. reflexivity. Qed.

Lemma step_settled (pc : Platform) (n : nat) (r : settlement) (a : App) :
  step id a (pc, settled n r) = exec (settle id pc n r) a.
Proof. reflexivity. Qed.

(** The function suspended last is resumed. *)
Lemma step_settled_last
  (pc : Platform) (r : settlement) (a : App) (l : list cont) (k : cont) :
  suspended a = l ++ [k] ->
  step id a (pc, settled (List.length l) r) =
  let '(next, a', out) := resume id pc k r a in
  (splice (List.length l) next a', out).
Proof.
  intros H. rewrite step_settled. apply exec_settle.
  rewrite H. apply nth_error_last.
Qed.

Lemma splice_last (a : App) (l : list cont) (k : cont) (next : option cont) :
  suspended a = l ++ [k] ->
  splice (List.length l) next a =
  set_suspended (l ++ match next with Some k' => [k'] | None => [] end) a.
Proof.
  intros H. unfold splice. rewrite H, firstn_last, skipn_last.
  now rewrite app_nil_r.
Qed.

Lemma suspended_set_suspended (l : list cont) (a : App) :
  suspended (set_suspended l a) = l.
Proof. reflexivity. Qed.

(** Once the inbound offer is applied, the handler answers it. *)
Lemma answer_after_setRemoteDescription
  (pc1 pc2 pc3 : Platform) (a : App) (l : list cont)
  (data : SignalingData) (d ans : RTCSessionDescription) (v1 v3 : value) :
  suspended a = l ++ [onmessage_setRemoteDescription data d] ->
  type d = offer ->
  data_candidate data = None ->
  run id a [(pc1, settled (List.length l) (fulfilled v1));
            (pc2, settled (List.length l) (fulfilled (a_description ans)));
            (pc3, settled (List.length l) (fulfilled v3))]
  = (set_suspended l a,
     [createAnswer;
      setLocalDescription ans;
      webSocket_send {| data_id := id;
                        data_description := localDescription pc3;
                        data_candidate := None |}]).
Proof.
  intros Hs Ht Hc. rewrite !run_cons.
  rewrite (step_settled_last pc1 _ a l _ Hs).
  cbn [resume onmessage_resume]. rewrite Ht. cbn.
  rewrite (splice_last a l _ _ Hs).
  set (a1 := set_suspended _ a).
  rewrite (step_settled_last pc2 _ a1 l (onmessage_createAnswer data) eq_refl).
  cbn. rewrite (splice_last a1 l _ _ eq_refl).
  set (a2 := set_suspended _ a1).
  rewrite (step_settled_last pc3 _ a2 l (onmessage_setLocalDescription data) eq_refl).
  cbn. unfold onmessage_candidate. rewrite Hc. cbn.
  rewrite (splice_last a2 l _ _ eq_refl). cbn.
  rewrite app_nil_r. reflexivity.
Qed.

(** If applying the inbound description fails, the handler ends there. *)
Lemma nothing_after_rejection
  (pc1 : Platform) (a : App) (l : list cont)
  (data : SignalingData) (d : RTCSessionDescription) :
  suspended a = l ++ [onmessage_setRemoteDescription data d] ->
  step id a (pc1, settled (List.length l) rejected) = (set_suspended l a, []).
Proof.
  intros Hs. rewrite (step_settled_last pc1 _ a l _ Hs). cbn.
  rewrite (splice_last a l _ _ Hs). now rewrite app_nil_r.
Qed.

End Negotiation.

(** C4: an offer arrives at a peer that is not polite while it is making an
    offer or its signaling state is not stable.  The handler sets
    [ignoreOffer], makes no call for the envelope (the only call it can make
    is the [createOffer] of its own offer) and leaves no continuation of
    itself behind; when [makingOffer] was false it has, in this same step,
    set [makingOffer] and called [createOffer] through [makeOffer]. *)
Theorem impolite_collision_ignores
  (id : ParticipantId) (pc : Platform) (a : App) (data : SignalingData) (d : RTCSessionDescription) :
  data_description data = Some d ->
  type d = offer ->
  polite (collator pc) (data_id data) id = false ->
  makingOffer a || negb (is_stable (signalingState pc)) = true ->
  let (a', out) := step id a (pc, message data) in
  ignoreOffer a' = true
  /\ (forall c, In c out -> c = createOffer)
  /\ (makingOffer a = true -> out = [] /\ suspended a' = suspended a)
  /\ (makingOffer a = false ->
      out = [createOffer]
      /\ makingOffer a' = true
      /\ suspended a' = suspended a ++ [makeOffer_createOffer]).
Proof.
  intros Hd Ht Hp Hc.
  rewrite step_message, (exec_onmessage_description id pc data d a Hd).
  rewrite Ht, Hp, Hc. simpl.
  destruct (makingOffer a) eqn:Hm; simpl.
  - repeat split; try reflexivity; try discriminate. intros c [].
  - repeat split; try reflexivity; try discriminate.
    intros c [<-|[]]. reflexivity.
Qed.

Lemma impolite_collision_ignores_witness :
  let (a', out) :=
    step "bbb" (Sample.offered "bbb")
      (Sample.signaling have_local_offer,
       message (Sample.description_from "aaa" Sample.offer2)) in
  ignoreOffer a' = true
  /\ (forall c, In c out -> c = createOffer)
  /\ (makingOffer (Sample.offered "bbb") = true ->
      out = [] /\ suspended a' = suspended (Sample.offered "bbb"))
  /\ (makingOffer (Sample.offered "bbb") = false ->
      out = [createOffer]
      /\ makingOffer a' = true
      /\ suspended a' = suspended (Sample.offered "bbb") ++ [makeOffer_createOffer]).
Proof.
  apply (impolite_collision_ignores "bbb"
           (Sample.signaling have_local_offer) (Sample.offered "bbb")
           (Sample.description_from "aaa" Sample.offer2) Sample.offer2);
    reflexivity.
Defined.

(** C5: an offer arrives at a polite peer in collision.  The handler calls
    [setLocalDescription({type: 'rollback'})] and [setRemoteDescription] with
    the incoming description, and goes no further until both have
    succeeded (if either fails it stops there); it then calls
    [createAnswer], [setLocalDescription] with the answer, and sends an
    envelope with the local [id] and the local description of the peer
    connection. *)
Theorem polite_collision_rolls_back_and_answers
  (id : ParticipantId) (pc0 pc1 pc2 pc3 : Platform) (a : App) (data : SignalingData)
  (d ans : RTCSessionDescription) (v1 v3 : value) :
  data_description data = Some d ->
  data_candidate data = None ->
  type d = offer ->
  polite (collator pc0) (data_id data) id = true ->
  makingOffer a || negb (is_stable (signalingState pc0)) = true ->
  let n := List.length (suspended a) in
  snd (step id a (pc0, message data))
  = [setLocalDescription rollback_description; setRemoteDescription d]
  /\ ignoreOffer (fst (step id a (pc0, message data))) = false
  /\ snd (run id a [(pc0, message data); (pc1, settled n rejected)])
     = [setLocalDescription rollback_description; setRemoteDescription d]
  /\ snd (run id a [(pc0, message data);
                    (pc1, settled n (fulfilled v1));
                    (pc2, settled n (fulfilled (a_description ans)));
                    (pc3, settled n (fulfilled v3))])
     = [setLocalDescription rollback_description;
        setRemoteDescription d;
        createAnswer;
        setLocalDescription ans;
        webSocket_send {| data_id := id;
                          data_description := localDescription pc3;
                          data_candidate := None |}].
Proof.
  intros Hd Hcand Ht Hp Hc n. subst n.
  assert (Hstep : step id a (pc0, message data)
                  = (set_suspended
                       (suspended a ++ [onmessage_setRemoteDescription data d])
                       (set_ignoreOffer false a),
                     [setLocalDescription rollback_description;
                      setRemoteDescription d])).
  { rewrite step_message, (exec_onmessage_description id pc0 data d a Hd).
    rewrite Ht, Hp, Hc. reflexivity. }
  set (a1 := set_suspended _ _) in Hstep.
  repeat split.
  - now rewrite Hstep.
  - now rewrite Hstep.
  - rewrite run_cons, Hstep. cbn [fst snd].
    rewrite run_cons.
    rewrite (nothing_after_rejection id pc1 a1 (suspended a) data d eq_refl).
    reflexivity.
  - rewrite run_cons, Hstep. cbn [fst snd].
    rewrite (answer_after_setRemoteDescription id pc1 pc2 pc3 a1 (suspended a)
               data d ans v1 v3 eq_refl Ht Hcand).
    reflexivity.
Qed.

Lemma polite_collision_rolls_back_and_answers_witness :
  snd (run "aaa" (Sample.offered "aaa")
         [(Sample.signaling have_local_offer,
           message (Sample.description_from "bbb" Sample.offer2));
          (Sample.signaling have_remote_offer, settled 0 (fulfilled undefined));
          (Sample.signaling have_remote_offer,
           settled 0 (fulfilled (a_description Sample.answer1)));
          (Sample.described stable Sample.answer1, settled 0 (fulfilled undefined))])
  = [setLocalDescription rollback_description;
     setRemoteDescription Sample.offer2;
     createAnswer;
     setLocalDescription Sample.answer1;
     webSocket_send (Sample.description_from "aaa" Sample.answer1)].
Proof.
  apply (polite_collision_rolls_back_and_answers "aaa"
           (Sample.signaling have_local_offer)
           (Sample.signaling have_remote_offer)
           (Sample.signaling have_remote_offer)
           (Sample.described stable Sample.answer1)
           (Sample.offered "aaa")
           (Sample.description_from "bbb" Sample.offer2)
           Sample.offer2 Sample.answer1 undefined undefined);
    reflexivity.
Defined.

(* ================================================================== *)
(** ** The scenario of ids "aaa" and "bbb" *)
(* ================================================================== *)

Lemma polite_true (host : Collator) (remote local : ParticipantId) :
  polite host remote local = true <-> localeCompare host remote local = 1%Z.
Proof. unfold polite. apply Z.eqb_eq. Qed.

Lemma polite_false (host : Collator) (remote local : ParticipantId) :
  polite host remote local = false <-> localeCompare host remote local <> 1%Z.
Proof. unfold polite. apply Z.eqb_neq. Qed.

(** C3 does not hold as stated.  On en-US hosts, peer B (id "bbb"),
    processing an envelope sent by "aaa", does not compute [polite = true];
    and peer A (id "aaa"), which has sent its own offer and receives the
    offer of "bbb", does not set [ignoreOffer]: it rolls back and applies
    that offer, while B, in the same position, sets [ignoreOffer]. *)
Lemma aaa_bbb_B_is_not_polite :
  polite en_US "aaa" "bbb" = false
  /\ polite en_US "bbb" "aaa" = true
  /\ step "aaa" (Sample.offered "aaa")
       (Sample.signaling have_local_offer,
        message (Sample.description_from "bbb" Sample.offer2))
     = (set_suspended
          [onmessage_setRemoteDescription
             (Sample.description_from "bbb" Sample.offer2) Sample.offer2]
          (set_ignoreOffer false (Sample.offered "aaa")),
        [setLocalDescription rollback_description;
         setRemoteDescription Sample.offer2])
  /\ ignoreOffer
       (fst (step "bbb" (Sample.offered "bbb")
               (Sample.signaling have_local_offer,
                message (Sample.description_from "aaa" Sample.offer1))))
     = true.
Proof. split; [|split; [|split]]; vm_compute; reflexivity. Qed.

(** C3, as the code has it: with ids "aaa" and "bbb", on hosts that sort
    "aaa" before "bbb" (A's host compares "bbb" with "aaa" as 1, B's host
    does not compare "aaa" with "bbb" as 1; the en-US collation does both),
    it is A that is polite (A, whose id is "aaa", reads the sender id "bbb"
    and computes [polite = true]) and B that is not.  When the two offers
    cross, B sets [ignoreOffer] and applies nothing of A's offer, while A
    rolls back, applies B's offer and answers it. *)
Theorem aaa_bbb_roles
  (pcA pcB pc1 pc2 pc3 : Platform) (a b : App)
  (dA dB ans : RTCSessionDescription) (v1 v3 : value) :
  localeCompare (collator pcA) "bbb" "aaa" = 1%Z ->
  localeCompare (collator pcB) "aaa" "bbb" <> 1%Z ->
  type dA = offer ->
  type dB = offer ->
  makingOffer a || negb (is_stable (signalingState pcA)) = true ->
  makingOffer b || negb (is_stable (signalingState pcB)) = true ->
  polite (collator pcA) "bbb" "aaa" = true
  /\ polite (collator pcB) "aaa" "bbb" = false
  /\ ignoreOffer
       (fst (step "bbb" b (pcB, message (Sample.description_from "aaa" dA))))
     = true
  /\ (forall c,
         In c (snd (step "bbb" b (pcB, message (Sample.description_from "aaa" dA)))) ->
         c = createOffer)
  /\ ignoreOffer
       (fst (step "aaa" a (pcA, message (Sample.description_from "bbb" dB))))
     = false
  /\ snd (run "aaa" a
            [(pcA, message (Sample.description_from "bbb" dB));
             (pc1, settled (List.length (suspended a)) (fulfilled v1));
             (pc2, settled (List.length (suspended a)) (fulfilled (a_description ans)));
             (pc3, settled (List.length (suspended a)) (fulfilled v3))])
     = [setLocalDescription rollback_description;
        setRemoteDescription dB;
        createAnswer;
        setLocalDescription ans;
        webSocket_send {| data_id := "aaa";
                          data_description := localDescription pc3;
                          data_candidate := None |}].
Proof.
  intros HA HB HtA HtB HcA HcB.
  apply polite_true in HA. apply polite_false in HB.
  assert (HstepB : step "bbb" b (pcB, message (Sample.description_from "aaa" dA))
               = if makingOffer b then (set_ignoreOffer true b, [])
                 else
                   (set_suspended (suspended b ++ [makeOffer_createOffer])
                      (set_makingOffer true (set_ignoreOffer true b)),
                    [createOffer])).
  { rewrite step_message,
      (exec_onmessage_description "bbb" pcB (Sample.description_from "aaa" dA) dA b
         eq_refl).
    cbn [data_id Sample.description_from].
    rewrite HtA, HcB, HB. reflexivity. }
  assert (HstepA : step "aaa" a (pcA, message (Sample.description_from "bbb" dB))
               = (set_suspended
                    (suspended a
                     ++ [onmessage_setRemoteDescription
                           (Sample.description_from "bbb" dB) dB])
                    (set_ignoreOffer false a),
                  [setLocalDescription rollback_description;
                   setRemoteDescription dB])).
  { rewrite step_message,
      (exec_onmessage_description "aaa" pcA (Sample.description_from "bbb" dB) dB a
         eq_refl).
    cbn [data_id Sample.description_from].
    rewrite HtB, HcA, HA. reflexivity. }
  split; [exact HA|]. split; [exact HB|].
  split; [rewrite HstepB; now destruct (makingOffer b)|].
  split.
  { rewrite HstepB. destruct (makingOffer b); simpl; intros c Hin.
    - destruct Hin.
    - destruct Hin as [<-|[]]. reflexivity. }
  split; [now rewrite HstepA|].
  rewrite run_cons, HstepA. cbn [fst snd].
  set (a1 := set_suspended _ _).
  rewrite (answer_after_setRemoteDescription "aaa" pc1 pc2 pc3 a1 (suspended a)
             (Sample.description_from "bbb" dB) dB ans v1 v3 eq_refl HtB eq_refl).
  reflexivity.
Qed.

Lemma aaa_bbb_roles_witness :
  ignoreOffer
    (fst (step "bbb" (Sample.offered "bbb")
            (Sample.signaling have_local_offer,
             message (Sample.description_from "aaa" Sample.offer1)))) = true.
Proof.
  apply (aaa_bbb_roles
           (Sample.signaling have_local_offer)
           (Sample.signaling have_local_offer)
           (Sample.signaling have_remote_offer)
           (Sample.signaling have_remote_offer)
           (Sample.described stable Sample.answer1)
           (Sample.offered "aaa") (Sample.offered "bbb")
           Sample.offer1 Sample.offer2 Sample.answer1
           undefined undefined);
    try reflexivity.
  vm_compute. discriminate.
Defined.

(* ================================================================== *)
(** ** Two hosts that collate differently *)
(* ================================================================== *)

(** C2, on two hosts that collate differently.  Peer A, on an en-US host,
    has id [Sample.idA]; peer B, on a Danish host, has id [Sample.idB].
    Each reads the other's id from the inbound envelope and computes
    [polite = true]: the en-US host sorts [idB] after [idA], the Danish host
    sorts [idA], which begins with [aa], after [idB].  When their offers
    cross neither sets [ignoreOffer]; both roll back. *)
Theorem two_hosts_both_polite :
  Sample.idA <> Sample.idB
  /\ polite en_US Sample.idB Sample.idA = true
  /\ polite da_DK Sample.idA Sample.idB = true
  /\ ignoreOffer
       (fst (step Sample.idA (Sample.offered Sample.idA)
               (Sample.signaling have_local_offer,
                message (Sample.description_from Sample.idB Sample.offer2))))
     = false
  /\ ignoreOffer
       (fst (step Sample.idB (Sample.offered Sample.idB)
               (Sample.danish have_local_offer,
                message (Sample.description_from Sample.idA Sample.offer1))))
     = false
  /\ step Sample.idA (Sample.offered Sample.idA)
       (Sample.signaling have_local_offer,
        message (Sample.description_from Sample.idB Sample.offer2))
     = (set_suspended
          [onmessage_setRemoteDescription
             (Sample.description_from Sample.idB Sample.offer2) Sample.offer2]
          (Sample.offered Sample.idA),
        [setLocalDescription rollback_description;
         setRemoteDescription Sample.offer2])
  /\ step Sample.idB (Sample.offered Sample.idB)
       (Sample.danish have_local_offer,
        message (Sample.description_from Sample.idA Sample.offer1))
     = (set_suspended
          [onmessage_setRemoteDescription
             (Sample.description_from Sample.idA Sample.offer1) Sample.offer1]
          (Sample.offered Sample.idB),
        [setLocalDescription rollback_description;
         setRemoteDescription Sample.offer1]).
Proof.
  split; [discriminate|].
  split; [reflexivity|]. split; [reflexivity|].
  split; [reflexivity|]. split; [reflexivity|].
  split; vm_compute; reflexivity.
Qed.

(* ================================================================== *)
(** ** Negotiation needed *)
(* ================================================================== *)

Example setup_calls :
  run "aaa" initial Sample.setup
  = ({| status := calling; reactions := [];
        sendReactionRef := Some 3;
        disposeRef := Some {| webSocket := 1; peerConnection := 2;
                              localStream := [10; 11] |};
        makingOffer := false; ignoreOffer := false; suspended := [] |},
     [new_WebSocket; getUserMedia; new_RTCPeerConnection;
      createDataChannel "reactions"; addTrack 10; addTrack 11]).
Proof. reflexivity. Qed.

Example one_firing :
  run "aaa" (Sample.ready "aaa")
    [(Sample.platform, negotiationneeded);
     (Sample.platform, settled 0 (fulfilled (a_description Sample.offer1)));
     (Sample.described have_local_offer Sample.offer1, settled 0 (fulfilled undefined))]
  = (Sample.ready "aaa",
     [createOffer; setLocalDescription Sample.offer1;
      webSocket_send (Sample.description_from "aaa" Sample.offer1)]).
Proof. reflexivity. Qed.

Example failed_offer_resets_flag :
  run "aaa" (Sample.ready "aaa")
    [(Sample.platform, negotiationneeded);
     (Sample.platform, settled 0 rejected)]
  = (Sample.ready "aaa", [createOffer; console_error]).
Proof. reflexivity. Qed.

Lemma offers_sent_app (l1 l2 : list call) :
  offers_sent (l1 ++ l2) = offers_sent l1 + offers_sent l2.
Proof. unfold offers_sent. now rewrite filter_app, length_app. Qed.

(** C1 does not hold as stated.  The second firing comes while
    [makingOffer] is true and the first [createOffer] is still pending; it
    is not ignored: [createOffer] is called again, and two offer envelopes
    go out. *)
Lemma second_firing_sends_second_offer :
  let a1 := fst (step "aaa" (Sample.ready "aaa") (Sample.platform, negotiationneeded)) in
  makingOffer a1 = true
  /\ suspended a1 = [makeOffer_createOffer]
  /\ snd (step "aaa" a1 (Sample.platform, negotiationneeded)) = [createOffer]
  /\ snd (run "aaa" (Sample.ready "aaa") Sample.two_firings)
     = [createOffer; createOffer;
        setLocalDescription Sample.offer1;
        webSocket_send (Sample.description_from "aaa" Sample.offer1);
        setLocalDescription Sample.offer2;
        webSocket_send (Sample.description_from "aaa" Sample.offer2)]
  /\ ~ offers_sent (snd (run "aaa" (Sample.ready "aaa") Sample.two_firings)) <= 1.
Proof.
  split; [reflexivity|]. split; [reflexivity|]. split; [reflexivity|].
  split; [reflexivity|].
  change (offers_sent (snd (run "aaa" (Sample.ready "aaa") Sample.two_firings)))
    with 2.
  lia.
Qed.

Section Offers.

Variable id : ParticipantId.

(** What resuming a suspended [makeOffer] does: the state changes in
    [makingOffer] only, and an envelope is sent at most when it ends. *)
Lemma makeOffer_resume_cases (pc : Platform) (k : cont) (r : settlement) (a : App) :
  is_makeOffer k = true ->
  exists next a' out,
    resume id pc k r a = (next, a', out)
    /\ suspended a' = suspended a
    /\ match next with
       | Some k' => is_makeOffer k' = true /\ offers_sent out = 0
       | None => offers_sent out <= 1
       end.
Proof.
  intros Hk.
  destruct k; try discriminate; destruct r as [[ |d|ws|tracks]|];
    eexists _, _, _; (split; [reflexivity|]); split; try reflexivity;
    cbn; auto; destruct (localDescription pc) as [[[] ?]|]; cbn; lia.
Qed.

(** One event of an offer exchange: a firing adds one suspended
    [makeOffer]; a settlement sends an envelope only by ending one. *)
Lemma offers_step (pc : Platform) (ev : event) (a : App) :
  forallb is_makeOffer (suspended a) = true ->
  is_negotiationneeded ev || is_settled ev = true ->
  forallb is_makeOffer (suspended (fst (step id a (pc, ev)))) = true
  /\ offers_sent (snd (step id a (pc, ev)))
     + List.length (suspended (fst (step id a (pc, ev))))
     <= (if is_negotiationneeded ev then 1 else 0) + List.length (suspended a).
Proof.
  intros Hall Hev. destruct ev; try discriminate.
  - change (step id a (pc, negotiationneeded)) with (exec makeOffer a).
    rewrite exec_makeOffer. simpl.
    rewrite forallb_app, Hall, length_app. simpl. split; [reflexivity | lia].
  - rewrite step_settled.
    destruct (nth_error (suspended a) n) as [k|] eqn:Hn.
    + assert (Hk : is_makeOffer k = true).
      { rewrite forallb_forall in Hall. apply Hall.
        now apply nth_error_In with n. }
      rewrite (exec_settle id pc n r a k Hn).
      destruct (makeOffer_resume_cases pc k r a Hk)
        as (next & a' & out & -> & Hs & Hnext).
      cbn [fst snd]. unfold splice. rewrite suspended_set_suspended, Hs.
      destruct next as [k'|].
      * destruct Hnext as [Hk' Hout]. split.
        -- apply splice_forallb; [assumption|]. simpl. now rewrite Hk'.
        -- pose proof (splice_length (suspended a) n k [k'] Hn) as Hlen.
           simpl in *. lia.
      * split.
        -- now apply splice_forallb.
        -- pose proof (splice_length (suspended a) n k [] Hn) as Hlen.
           simpl in *. lia.
    + rewrite (exec_settle_none id pc n r a Hn). simpl.
      split; [assumption | lia].
Qed.

Lemma firings_cons (pc : Platform) (ev : event) (evs : list (Platform * event)) :
  firings ((pc, ev) :: evs)
  = (if is_negotiationneeded ev then 1 else 0) + firings evs.
Proof. unfold firings. simpl. now destruct (is_negotiationneeded ev). Qed.

Lemma offers_run (evs : list (Platform * event)) :
  forall a,
    forallb is_makeOffer (suspended a) = true ->
    forallb (fun ev => is_negotiationneeded ev || is_settled ev) (map snd evs) = true ->
    offers_sent (snd (run id a evs)) + List.length (suspended (fst (run id a evs)))
    <= firings evs + List.length (suspended a).
Proof.
  induction evs as [|[pc ev] evs IH]; intros a Hall Hevs.
  - simpl. unfold firings. simpl. lia.
  - simpl in Hevs. apply andb_true_iff in Hevs as [Hev Hevs].
    destruct (offers_step pc ev a Hall Hev) as [Hall1 Hstep].
    specialize (IH _ Hall1 Hevs).
    rewrite run_cons, firings_cons. cbn [fst snd].
    rewrite offers_sent_app. lia.
Qed.

End Offers.

(** C1, as the code has it: [onnegotiationneeded] does not look at
    [makingOffer].  Every firing, whatever the flag, sets it and calls
    [createOffer] in a new invocation of [makeOffer]; each invocation sends
    at most one envelope, so over any exchange of firings and settlements
    the offer envelopes sent are at most as many as the firings (two for two
    firings), however the calls on the peer connection turn out. *)
Theorem negotiationneeded_starts_an_offer_each_time
  (id : ParticipantId) (a : App) (evs : list (Platform * event)) :
  forallb is_makeOffer (suspended a) = true ->
  forallb (fun ev => is_negotiationneeded ev || is_settled ev) (map snd evs) = true ->
  (forall pc,
      step id a (pc, negotiationneeded)
      = (set_suspended (suspended a ++ [makeOffer_createOffer])
           (set_makingOffer true a),
         [createOffer]))
  /\ offers_sent (snd (run id a evs))
     + List.length (suspended (fst (run id a evs)))
     <= firings evs + List.length (suspended a).
Proof.
  intros Hall Hevs. split.
  - intros pc. reflexivity.
  - now apply offers_run.
Qed.

Lemma negotiationneeded_starts_an_offer_each_time_witness :
  offers_sent (snd (run "aaa" (Sample.ready "aaa") Sample.two_firings))
  + List.length (suspended (fst (run "aaa" (Sample.ready "aaa") Sample.two_firings)))
  <= firings Sample.two_firings + List.length (suspended (Sample.ready "aaa")).
Proof.
  apply (negotiationneeded_starts_an_offer_each_time
           "aaa" (Sample.ready "aaa") Sample.two_firings);
    reflexivity.
Defined.

(* ================================================================== *)
(** ** Inbound candidates *)
(* ================================================================== *)

Example bad_candidate_logged :
  run "aaa" (Sample.ready "aaa")
    [(Sample.platform, message (Sample.candidate_from "bbb" "candidate:1"));
     (Sample.platform, settled 0 rejected)]
  = (Sample.ready "aaa", [addIceCandidate "candidate:1"; console_error]).
Proof. reflexivity. Qed.

Example bad_candidate_swallowed :
  run "aaa" (set_ignoreOffer true (Sample.ready "aaa"))
    [(Sample.platform, message (Sample.candidate_from "bbb" "candidate:1"));
     (Sample.platform, settled 0 rejected)]
  = (set_ignoreOffer true (Sample.ready "aaa"), [addIceCandidate "candidate:1"]).
Proof. reflexivity. Qed.

(** C6: a candidate that cannot be applied, either because
    [addIceCandidate] rejects or because [new RTCIceCandidate] throws.  The
    error is logged exactly when [ignoreOffer] is false at that moment, and
    nothing else happens: no other call is made (so nothing is released),
    and the state is unchanged but for the handler having ended, so status,
    refs, flags and the other suspended functions stay as they are. *)
Theorem candidate_failure_is_not_fatal
  (id : ParticipantId) (pc : Platform) (a : App) (n : nat)
  (data : SignalingData) (c : RTCIceCandidate) :
  (nth_error (suspended a) n = Some onmessage_addIceCandidate ->
   step id a (pc, settled n rejected)
   = (splice n None a, if ignoreOffer a then [] else [console_error]))
  /\ (data_description data = None ->
      data_candidate data = Some c ->
      candidate_throws pc = true ->
      step id a (pc, message data)
      = (a, if ignoreOffer a then [] else [console_error]))
  /\ status (splice n None a) = status a
  /\ disposeRef (splice n None a) = disposeRef a
  /\ sendReactionRef (splice n None a) = sendReactionRef a
  /\ makingOffer (splice n None a) = makingOffer a
  /\ ignoreOffer (splice n None a) = ignoreOffer a
  /\ (In console_error (if ignoreOffer a then [] else [console_error])
      <-> ignoreOffer a = false).
Proof.
  split; [|split].
  - intros Hn. rewrite step_settled, (exec_settle id pc n rejected a _ Hn).
    cbn. destruct (ignoreOffer a); reflexivity.
  - intros Hd Hc Ht. rewrite step_message.
    unfold exec, start, onmessage, onmessage_candidate, bind.
    rewrite Hd, Hc, Ht. cbn. destruct (ignoreOffer a); reflexivity.
  - repeat split; try reflexivity.
    + destruct (ignoreOffer a); [intros [] | reflexivity].
    + intros ->. now left.
Qed.

Lemma candidate_failure_is_not_fatal_witness :
  step "aaa"
    (fst (step "aaa" (Sample.ready "aaa")
            (Sample.platform, message (Sample.candidate_from "bbb" "candidate:1"))))
    (Sample.platform, settled 0 rejected)
  = (Sample.ready "aaa", [console_error])
  /\ step "aaa" (set_ignoreOffer true (Sample.ready "aaa"))
       (Sample.bad_candidate, message (Sample.candidate_from "bbb" "candidate:1"))
     = (set_ignoreOffer true (Sample.ready "aaa"), []).
Proof.
  split.
  - apply (candidate_failure_is_not_fatal "aaa" Sample.platform
             (fst (step "aaa" (Sample.ready "aaa")
                     (Sample.platform,
                      message (Sample.candidate_from "bbb" "candidate:1"))))
             0 (Sample.candidate_from "bbb" "candidate:1") "candidate:1").
    reflexivity.
  - apply (candidate_failure_is_not_fatal "aaa" Sample.bad_candidate
             (set_ignoreOffer true (Sample.ready "aaa"))
             0 (Sample.candidate_from "bbb" "candidate:1") "candidate:1");
      reflexivity.
Defined.

(* ================================================================== *)
(** ** Connectivity changes and errors during setup *)
(* ================================================================== *)

Lemma onDisconnect_eq (a : App) :
  onDisconnect a = (tt, fst (exec onDisconnect a), snd (exec onDisconnect a)).
Proof.
  unfold exec. now destruct (onDisconnect a) as [[[] a'] out].
Qed.

Lemma onDisconnect_status (a : App) : status (fst (exec onDisconnect a)) = idle.
Proof. rewrite exec_onDisconnect. now destruct (disposeRef a). Qed.

Lemma onDisconnect_refs (a : App) :
  disposeRef (fst (exec onDisconnect a)) = None
  /\ (refs_ok a = true -> sendReactionRef (fst (exec onDisconnect a)) = None).
Proof.
  rewrite exec_onDisconnect. unfold refs_ok.
  destruct (disposeRef a) eqn:Hd; simpl; rewrite ?Hd; split; auto.
  now destruct (sendReactionRef a).
Qed.

Lemma onDisconnect_plays (a : App) :
  In (audio_play "/alert-stop.mp3") (snd (exec onDisconnect a))
  /\ ~ In restartIce (snd (exec onDisconnect a)).
Proof.
  rewrite exec_onDisconnect.
  destruct (disposeRef a) as [d|]; simpl; split; auto.
  - intros [H|[H|[H|H]]]; try discriminate.
    apply in_map_iff in H as (t & H & _). discriminate.
  - intros [H|[]]. discriminate.
Qed.

Lemma onStartCall_catch_eq (a : App) :
  onStartCall_catch a
  = (None, fst (exec onDisconnect a),
     console_error :: snd (exec onDisconnect a)).
Proof.
  unfold onStartCall_catch, bind, do, ret. rewrite onDisconnect_eq. simpl.
  now rewrite app_nil_r.
Qed.

Lemma exec_oniceconnectionstatechange (pc : Platform) (a : App) :
  exec (oniceconnectionstatechange pc) a =
  match iceConnectionState pc with
  | failed => (a, [restartIce])
  | disconnected => exec onDisconnect a
  | _ => (a, [])
  end.
Proof.
  unfold oniceconnectionstatechange.
  destruct (iceConnectionState pc); try reflexivity.
  unfold exec, bind. simpl. now destruct (onDisconnect a) as [[[] a'] out].
Qed.

(** The synchronous part of the setup, by the statement that throws. *)
Lemma onStartCall_setup_eq
  (pc : Platform) (ws : Handle) (tracks : list Handle) (a : App) :
  let a0 :=
    set_disposeRef
      (Some {| webSocket := ws; peerConnection := new_peerConnection pc;
               localStream := tracks |})
      (set_sendReactionRef (Some (new_dataChannel pc)) a) in
  let installed :=
    (@None cont, set_ignoreOffer false (set_makingOffer false a0),
     new_RTCPeerConnection :: createDataChannel "reactions" :: map addTrack tracks) in
  onStartCall_setup pc ws tracks a =
  match setup_throws pc with
  | Some at_RTCPeerConnection =>
      (None, fst (exec onDisconnect a),
       new_RTCPeerConnection :: console_error :: snd (exec onDisconnect a))
  | Some at_createDataChannel =>
      (None, fst (exec onDisconnect a),
       new_RTCPeerConnection :: createDataChannel "reactions"
         :: console_error :: snd (exec onDisconnect a))
  | Some (at_addTrack j) =>
      if Nat.ltb j (List.length tracks) then
        (None, fst (exec onDisconnect a0),
         new_RTCPeerConnection :: createDataChannel "reactions"
           :: map addTrack (firstn (S j) tracks)
           ++ console_error :: snd (exec onDisconnect a0))
      else installed
  | None => installed
  end.
Proof.
  intros a0 installed. unfold onStartCall_setup, onStartCall_addTracks.
  destruct (setup_throws pc) as [[ | |j]|].
  - unfold bind. simpl. now rewrite onStartCall_catch_eq.
  - unfold bind. simpl. now rewrite onStartCall_catch_eq.
  - destruct (Nat.ltb j (List.length tracks)).
    + unfold bind. simpl. fold a0.
      rewrite forEach_do, onStartCall_catch_eq. reflexivity.
    + unfold bind. simpl. fold a0.
      rewrite forEach_do. simpl. now rewrite app_nil_r.
  - unfold bind. simpl. fold a0.
    rewrite forEach_do. simpl. now rewrite app_nil_r.
Qed.

Example ice_failed_restarts :
  step "aaa" (Sample.ready "aaa") (Sample.ice failed, iceconnectionstatechange)
  = (Sample.ready "aaa", [restartIce]).
Proof. reflexivity. Qed.

Example ice_disconnected_tears_down :
  step "aaa" (set_status in_progress (Sample.ready "aaa"))
    (Sample.ice disconnected, iceconnectionstatechange)
  = (initial,
     [audio_play "/alert-stop.mp3"; webSocket_close 1; peerConnection_close 2;
      track_stop 10; track_stop 11]).
Proof. reflexivity. Qed.

Example getUserMedia_denied :
  run "aaa" initial
    [(Sample.platform, click_StartCall);
     (Sample.platform, settled 0 (fulfilled (a_socket 1)));
     (Sample.platform, settled 0 rejected)]
  = (initial,
     [new_WebSocket; getUserMedia; console_error; audio_play "/alert-stop.mp3"]).
Proof. reflexivity. Qed.

Example addTrack_throws :
  run "aaa" initial
    [(Sample.platform, click_StartCall);
     (Sample.platform, settled 0 (fulfilled (a_socket 1)));
     (Sample.throwing (at_addTrack 1), settled 0 (fulfilled (a_stream [10; 11])))]
  = (initial,
     [new_WebSocket; getUserMedia; new_RTCPeerConnection;
      createDataChannel "reactions"; addTrack 10; addTrack 11; console_error;
      audio_play "/alert-stop.mp3"; webSocket_close 1; peerConnection_close 2;
      track_stop 10; track_stop 11]).
Proof. reflexivity. Qed.

(** An error in the [try] block of [onStartCall] ends in its [catch]:
    the error is logged and [onDisconnect] runs. *)
Lemma setup_failure_runs_onDisconnect
  (id : ParticipantId) (pc : Platform) (k : cont) (r : settlement) (a : App) :
  is_onStartCall k = true ->
  setup_fails pc k r = true ->
  exists a0 out0,
    resume id pc k r a
    = (None, fst (exec onDisconnect a0),
       out0 ++ console_error :: snd (exec onDisconnect a0)).
Proof.
  intros Hk Hr. destruct k; try discriminate; destruct r as [v|].
  - discriminate.
  - exists a, []. apply onStartCall_catch_eq.
  - destruct v as [ | | |tracks]; try discriminate.
    cbn [resume onStartCall_resume]. rewrite onStartCall_setup_eq.
    cbn [setup_fails] in Hr.
    destruct (setup_throws pc) as [[ | |j]|]; try discriminate.
    + exists a, [new_RTCPeerConnection]. reflexivity.
    + exists a, [new_RTCPeerConnection; createDataChannel "reactions"].
      reflexivity.
    + rewrite Hr. eexists _, (_ :: _ :: map addTrack (firstn (S j) tracks)).
      reflexivity.
  - exists a, []. apply onStartCall_catch_eq.
Qed.

(** C9: when the ICE connection state changes, [restartIce] is called
    exactly when the new state is [failed], and [onDisconnect] runs exactly
    when it is [disconnected] (otherwise nothing is done); [onDisconnect]
    leaves the status [idle].  When a step of the call setup throws or an
    awaited promise of it rejects, [onStartCall] ends by logging the error
    and running that same [onDisconnect], so the status is [idle] again. *)
Theorem connectivity_changes_and_setup_errors
  (id : ParticipantId) (pc : Platform) (a : App)
  (n : nat) (k : cont) (r : settlement) :
  step id a (pc, iceconnectionstatechange)
  = match iceConnectionState pc with
    | failed => (a, [restartIce])
    | disconnected => exec onDisconnect a
    | _ => (a, [])
    end
  /\ (In restartIce (snd (step id a (pc, iceconnectionstatechange)))
      <-> iceConnectionState pc = failed)
  /\ (In (audio_play "/alert-stop.mp3")
         (snd (step id a (pc, iceconnectionstatechange)))
      <-> iceConnectionState pc = disconnected)
  /\ (iceConnectionState pc = disconnected ->
      status (fst (step id a (pc, iceconnectionstatechange))) = idle)
  /\ (nth_error (suspended a) n = Some k ->
      is_onStartCall k = true ->
      setup_fails pc k r = true ->
      (exists a0 out0,
          step id a (pc, settled n r)
          = (splice n None (fst (exec onDisconnect a0)),
             out0 ++ console_error :: snd (exec onDisconnect a0)))
      /\ status (fst (step id a (pc, settled n r))) = idle).
Proof.
  assert (Hice : step id a (pc, iceconnectionstatechange)
                 = match iceConnectionState pc with
                   | failed => (a, [restartIce])
                   | disconnected => exec onDisconnect a
                   | _ => (a, [])
                   end) by apply exec_oniceconnectionstatechange.
  split; [exact Hice|]. rewrite Hice.
  destruct (onDisconnect_plays a) as [Hplay Hrestart].
  split; [|split; [|split]].
  - destruct (iceConnectionState pc); simpl; split;
      try discriminate; try tauto; try (intros [H|[]]; discriminate).
  - destruct (iceConnectionState pc); simpl; split;
      try discriminate; try tauto; try (intros [H|[]]; discriminate).
  - intros ->. apply onDisconnect_status.
  - intros Hn Hk Hr.
    destruct (setup_failure_runs_onDisconnect id pc k r a Hk Hr)
      as (a0 & out0 & Hres).
    rewrite step_settled, (exec_settle id pc n r a k Hn), Hres.
    split; [now exists a0, out0|].
    cbn [fst]. apply onDisconnect_status.
Qed.

Lemma connectivity_changes_and_setup_errors_witness :
  status
    (fst (step "aaa"
            (fst (run "aaa" initial
                    [(Sample.platform, click_StartCall);
                     (Sample.platform, settled 0 (fulfilled (a_socket 1)))]))
            (Sample.throwing at_RTCPeerConnection,
             settled 0 (fulfilled (a_stream [10; 11])))))
  = idle
  /\ status
       (fst (step "aaa" (set_status in_progress (Sample.ready "aaa"))
               (Sample.ice disconnected, iceconnectionstatechange)))
     = idle.
Proof.
  split.
  - apply (connectivity_changes_and_setup_errors "aaa"
             (Sample.throwing at_RTCPeerConnection)
             (fst (run "aaa" initial
                     [(Sample.platform, click_StartCall);
                      (Sample.platform, settled 0 (fulfilled (a_socket 1)))]))
             0 (onStartCall_getUserMedia 1) (fulfilled (a_stream [10; 11])));
      reflexivity.
  - apply (connectivity_changes_and_setup_errors "aaa"
             (Sample.ice disconnected)
             (set_status in_progress (Sample.ready "aaa"))
             0 onStartCall_createSocket rejected).
    reflexivity.
Defined.

(* ================================================================== *)
(** ** Reactions outside a call *)
(* ================================================================== *)

Section Refs.

Variable id : ParticipantId.

Lemma exec_onReaction_null (reaction : string) (a : App) :
  sendReactionRef a = None ->
  exec (onReaction reaction) a = (a, []).
Proof.
  intros H. unfold exec, onReaction, bind, read. simpl. now rewrite H.
Qed.

Lemma refs_ok_onDisconnect (a : App) :
  refs_ok a = true -> refs_ok (fst (exec onDisconnect a)) = true.
Proof.
  intros H. destruct (onDisconnect_refs a) as [Hd Hs].
  unfold refs_ok. now rewrite (Hs H).
Qed.

(** Resuming a suspended [makeOffer] or [onmessage] leaves status and refs
    alone and never suspends as an [onStartCall]. *)
Lemma resume_engine_frame (pc : Platform) (k : cont) (r : settlement) (a : App) :
  is_onStartCall k = false ->
  exists next a' out,
    resume id pc k r a = (next, a', out)
    /\ status a' = status a
    /\ sendReactionRef a' = sendReactionRef a
    /\ disposeRef a' = disposeRef a
    /\ suspended a' = suspended a
    /\ forallb (fun k' => negb (is_onStartCall k'))
         match next with Some k' => [k'] | None => [] end = true.
Proof.
  intros Hk.
  destruct k as [ |ws| | |data d|data|data| ]; try discriminate;
    destruct r as [[ |d'|ws'|tracks]|]; cbn;
    unfold onmessage_candidate, addIceCandidate_catch, bind, read;
    repeat match goal with
      | |- context [RTCSdpType_eqb ?x ?y] => destruct (RTCSdpType_eqb x y)
      | |- context [data_candidate ?x] => destruct (data_candidate x)
      | |- context [candidate_throws ?x] => destruct (candidate_throws x)
      | |- context [negb (ignoreOffer ?x)] => destruct (ignoreOffer x)
      end;
    cbn; eexists _, _, _; (split; [reflexivity|]); repeat split.
Qed.

Lemma refs_ok_resume (pc : Platform) (k : cont) (r : settlement) (a : App) :
  refs_ok a = true ->
  refs_ok (snd (fst (resume id pc k r a))) = true.
Proof.
  intros H. destruct (is_onStartCall k) eqn:Hk.
  - destruct k; try discriminate; destruct r as [[ |d'|ws'|tracks]|];
      cbn [resume onStartCall_resume]; try assumption;
      rewrite ?onStartCall_catch_eq; cbn [fst snd];
      try (now apply refs_ok_onDisconnect).
    rewrite onStartCall_setup_eq.
    destruct (setup_throws pc) as [[ | |j]|];
      try destruct (Nat.ltb j (List.length tracks));
      cbn [fst snd]; try (now apply refs_ok_onDisconnect); reflexivity.
  - destruct (resume_engine_frame pc k r a Hk)
      as (next & a' & out & -> & _ & Hs & Hd & _).
    cbn [fst snd]. unfold refs_ok in *. now rewrite Hs, Hd.
Qed.

Lemma refs_ok_step (a : App) (pcev : Platform * event) :
  refs_ok a = true -> refs_ok (fst (step id a pcev)) = true.
Proof.
  intros H. destruct pcev as [pc ev]. destruct ev.
  - exact H.
  - now apply refs_ok_onDisconnect.
  - unfold step, exec, handle, onReaction, bind, read. cbn.
    now destruct (sendReactionRef a).
  - exact H.
  - change (step id a (pc, iceconnectionstatechange))
      with (exec (oniceconnectionstatechange pc) a).
    rewrite exec_oniceconnectionstatechange.
    destruct (iceConnectionState pc); try exact H.
    now apply refs_ok_onDisconnect.
  - destruct candidate; exact H.
  - exact H.
  - unfold step, exec, handle, ondatachannel. cbn.
    destruct (String.eqb label "reactions"); exact H.
  - rewrite step_message.
    destruct (data_description data) as [d|] eqn:Hd.
    + rewrite (exec_onmessage_description id pc data d a Hd). cbv zeta.
      repeat match goal with
        | |- context [if ?b then _ else _] => destruct b
        end; exact H.
    + unfold exec, start, onmessage, onmessage_candidate,
        addIceCandidate_catch, bind, read.
      rewrite Hd. cbn.
      repeat match goal with
        | |- context [data_candidate ?x] => destruct (data_candidate x)
        | |- context [candidate_throws ?x] => destruct (candidate_throws x)
        | |- context [negb (ignoreOffer ?x)] => destruct (ignoreOffer x)
        end; exact H.
  - rewrite step_settled.
    destruct (nth_error (suspended a) n) as [k|] eqn:Hn.
    + rewrite (exec_settle id pc n r a k Hn).
      pose proof (refs_ok_resume pc k r a H) as Hres.
      destruct (resume id pc k r a) as [[next a'] out]. exact Hres.
    + now rewrite (exec_settle_none id pc n r a Hn).
Qed.

Lemma reachable_refs_ok (a : App) : reachable id a -> refs_ok a = true.
Proof.
  induction 1 as [|a pcev _ IH]; [reflexivity|]. now apply refs_ok_step.
Qed.

Lemma reachable_run (evs : list (Platform * event)) :
  forall a, reachable id a -> reachable id (fst (run id a evs)).
Proof.
  induction evs as [|ev evs IH]; intros a Ha; [exact Ha|].
  rewrite run_cons. cbn [fst]. apply IH. now apply reachable_step.
Qed.

Lemma not_started_step (a : App) (pc : Platform) (ev : event) :
  is_click_StartCall ev = false ->
  not_started a -> not_started (fst (step id a (pc, ev))).
Proof.
  intros Hev [Hs Hk]. destruct ev; try discriminate.
  - change (step id a (pc, click_EndCall)) with (exec onDisconnect a).
    rewrite exec_onDisconnect. destruct (disposeRef a); split; cbn; auto.
  - change (step id a (pc, click_reaction reaction))
      with (exec (onReaction reaction) a).
    rewrite (exec_onReaction_null reaction a Hs). now split.
  - split; [exact Hs|]. cbn. rewrite forallb_app, Hk. reflexivity.
  - change (step id a (pc, iceconnectionstatechange))
      with (exec (oniceconnectionstatechange pc) a).
    rewrite exec_oniceconnectionstatechange.
    destruct (iceConnectionState pc); try (now split).
    rewrite exec_onDisconnect. destruct (disposeRef a); split; cbn; auto.
  - destruct candidate; now split.
  - now split.
  - unfold step, exec, handle, ondatachannel. cbn.
    destruct (String.eqb label "reactions"); now split.
  - rewrite step_message.
    destruct (data_description data) as [d|] eqn:Hd.
    + rewrite (exec_onmessage_description id pc data d a Hd). cbv zeta.
      repeat match goal with
        | |- context [if ?b then _ else _] => destruct b
        end;
        split; cbn; rewrite ?forallb_app, ?Hk; auto.
    + unfold exec, start, onmessage, onmessage_candidate,
        addIceCandidate_catch, bind, read.
      rewrite Hd. cbn.
      repeat match goal with
        | |- context [data_candidate ?x] => destruct (data_candidate x)
        | |- context [candidate_throws ?x] => destruct (candidate_throws x)
        | |- context [negb (ignoreOffer ?x)] => destruct (ignoreOffer x)
        end;
        split; cbn; rewrite ?forallb_app, ?Hk; auto.
  - rewrite step_settled.
    destruct (nth_error (suspended a) n) as [k|] eqn:Hn.
    + assert (Hnk : is_onStartCall k = false).
      { rewrite forallb_forall in Hk.
        apply negb_true_iff, Hk. now apply nth_error_In with n. }
      rewrite (exec_settle id pc n r a k Hn).
      destruct (resume_engine_frame pc k r a Hnk)
        as (next & a' & out & -> & _ & Hs' & _ & Hsus & Hnext).
      cbn [fst]. split.
      * cbn. now rewrite Hs'.
      * unfold splice. rewrite suspended_set_suspended, Hsus.
        now apply splice_forallb.
    + rewrite (exec_settle_none id pc n r a Hn). now split.
Qed.

Lemma not_started_run (evs : list (Platform * event)) :
  forall a,
    forallb (fun ev => negb (is_click_StartCall ev)) (map snd evs) = true ->
    not_started a -> not_started (fst (run id a evs)).
Proof.
  induction evs as [|[pc ev] evs IH]; intros a Hevs Ha; [exact Ha|].
  simpl in Hevs. apply andb_true_iff in Hevs as [Hev Hevs].
  rewrite run_cons. cbn [fst]. apply IH; [assumption|].
  apply not_started_step; [|assumption]. now apply negb_true_iff.
Qed.

End Refs.

Example reaction_during_call :
  step "aaa" (set_status in_progress (Sample.ready "aaa"))
    (Sample.platform, click_reaction "heart")
  = (set_status in_progress (Sample.ready "aaa"), [dataChannel_send 3 "heart"]).
Proof. reflexivity. Qed.

(** C10: [onReaction] makes no call and changes nothing when no call is set
    up: in the initial state, in any state reached without "Start call"
    having been clicked, and in the state [onDisconnect] leaves behind,
    whatever the component has been through before.  In each of them
    [sendReactionRef] is null. *)
Theorem onReaction_without_call
  (id : ParticipantId) (evs : list (Platform * event)) (reaction : string) :
  exec (onReaction reaction) initial = (initial, [])
  /\ (forallb (fun ev => negb (is_click_StartCall ev)) (map snd evs) = true ->
      sendReactionRef (fst (run id initial evs)) = None
      /\ exec (onReaction reaction) (fst (run id initial evs))
         = (fst (run id initial evs), []))
  /\ sendReactionRef (fst (exec onDisconnect (fst (run id initial evs)))) = None
  /\ exec (onReaction reaction) (fst (exec onDisconnect (fst (run id initial evs))))
     = (fst (exec onDisconnect (fst (run id initial evs))), []).
Proof.
  split; [reflexivity|]. split.
  - intros Hevs.
    destruct (not_started_run id evs initial Hevs) as [Hs _].
    { now split. }
    split; [exact Hs | now apply exec_onReaction_null].
  - destruct (onDisconnect_refs (fst (run id initial evs))) as [_ Hs].
    assert (Hr : reachable id (fst (run id initial evs)))
      by (apply reachable_run; constructor).
    specialize (Hs (reachable_refs_ok id _ Hr)).
    split; [exact Hs | now apply exec_onReaction_null].
Qed.

Lemma onReaction_without_call_witness :
  sendReactionRef
    (fst (run "aaa" initial
            [(Sample.platform, track); (Sample.platform, negotiationneeded)]))
  = None
  /\ exec (onReaction "heart")
       (fst (run "aaa" initial
               [(Sample.platform, track); (Sample.platform, negotiationneeded)]))
     = (fst (run "aaa" initial
               [(Sample.platform, track); (Sample.platform, negotiationneeded)]),
        []).
Proof.
  apply (onReaction_without_call "aaa"
           [(Sample.platform, track); (Sample.platform, negotiationneeded)]
           "heart").
  reflexivity.
Defined.

Example reaction_after_hangup :
  run "aaa" (set_status in_progress (Sample.ready "aaa"))
    [(Sample.platform, click_EndCall);
     (Sample.platform, click_reaction "heart")]
  = (initial,
     [audio_play "/alert-stop.mp3"; webSocket_close 1; peerConnection_close 2;
      track_stop 10; track_stop 11]).
Proof. reflexivity. Qed.

(* ================================================================== *)
(** ** The relay: one copy each, in order *)
(* ================================================================== *)

Section RelayOrder.

Import Relay.

Variable toString : Buffer -> string.

Lemma NoDup_add (ws : WebSocket) (clients : Clients) :
  NoDup clients -> NoDup (add ws clients).
Proof.
  intros H. unfold add, has.
  destruct (existsb (Nat.eqb ws) clients) eqn:Hex; [assumption|].
  apply NoDup_app; [assumption | repeat constructor; intros [] |].
  intros c Hin [<-|[]].
  assert (existsb (Nat.eqb ws) clients = true); [|congruence].
  apply existsb_exists. exists ws. split; [assumption | apply Nat.eqb_refl].
Qed.

Lemma NoDup_step (clients : Clients) (ev : event) :
  NoDup clients -> NoDup (fst (step toString clients ev)).
Proof.
  intros H. destruct ev; simpl.
  - now apply NoDup_add.
  - now apply NoDup_filter.
  - assumption.
Qed.

Lemma NoDup_run (evs : list event) :
  forall clients, NoDup clients -> NoDup (fst (run toString clients evs)).
Proof.
  induction evs as [|ev evs IH]; intros clients H; [assumption|].
  simpl. pose proof (NoDup_step clients ev H) as H1.
  destruct (step toString clients ev) as [clients1 out1]. simpl in H1.
  specialize (IH clients1 H1). now destruct (run toString clients1 evs).
Qed.

Lemma NoDup_broadcast (ws : WebSocket) (payload : Buffer) (clients : Clients) :
  NoDup clients -> NoDup (broadcast toString ws payload clients).
Proof.
  intros H. unfold broadcast.
  apply NoDup_map_NoDup_ForallPairs; [|now apply NoDup_filter].
  intros x y _ _ Heq. now injection Heq.
Qed.

Lemma received_app (client : WebSocket) (out1 out2 : list call) :
  received client (out1 ++ out2) = received client out1 ++ received client out2.
Proof.
  induction out1 as [|[c d] out1 IH]; [reflexivity|].
  simpl. destruct (Nat.eqb c client); simpl; now rewrite IH.
Qed.

Lemma received_absent (client ws : WebSocket) (payload : Buffer) (clients : Clients) :
  ~ In client clients -> received client (broadcast toString ws payload clients) = [].
Proof.
  unfold broadcast. induction clients as [|c clients IH]; intros Hout;
    [reflexivity|].
  simpl. assert (Hc : c <> client) by (intros ->; apply Hout; now left).
  assert (Hrest : ~ In client clients) by (intros H; apply Hout; now right).
  destruct (Nat.eqb c ws); simpl; [now apply IH|].
  apply Nat.eqb_neq in Hc. rewrite Hc. now apply IH.
Qed.

Lemma received_member (client ws : WebSocket) (payload : Buffer) (clients : Clients) :
  NoDup clients ->
  In client clients ->
  received client (broadcast toString ws payload clients)
  = if Nat.eqb ws client then [] else [toString payload].
Proof.
  unfold broadcast. induction 1 as [|c clients Hc Hnd IH]; intros Hin;
    [destruct Hin|].
  simpl. destruct Hin as [->|Hin].
  - pose proof (received_absent client ws payload clients Hc) as Habs.
    unfold broadcast in Habs.
    rewrite (Nat.eqb_sym ws client).
    destruct (Nat.eqb client ws); simpl; [assumption|].
    now rewrite Nat.eqb_refl, Habs.
  - assert (Hne : Nat.eqb c client = false).
    { apply Nat.eqb_neq. intros ->. now apply Hc. }
    destruct (Nat.eqb c ws); simpl; [now apply IH|].
    rewrite Hne. now apply IH.
Qed.

Lemma in_step_kept (client : WebSocket) (clients : Clients) (ev : event) :
  is_close_of client ev = false ->
  In client clients -> In client (fst (step toString clients ev)).
Proof.
  intros Hev Hin. destruct ev as [ws|ws|ws d]; simpl.
  - apply in_add. now right.
  - apply in_delete. split; [assumption|].
    simpl in Hev. apply Nat.eqb_neq in Hev. congruence.
  - assumption.
Qed.

Lemma received_run (client : WebSocket) (evs : list event) :
  forall clients,
    NoDup clients ->
    In client clients ->
    forallb (fun ev => negb (is_close_of client ev)) evs = true ->
    In client (fst (run toString clients evs))
    /\ received client (snd (run toString clients evs))
       = map toString (sent_by_others client evs).
Proof.
  induction evs as [|ev evs IH]; intros clients Hnd Hin Hevs; [now split|].
  simpl in Hevs. apply andb_true_iff in Hevs as [Hev Hevs].
  apply negb_true_iff in Hev.
  pose proof (NoDup_step clients ev Hnd) as Hnd1.
  pose proof (in_step_kept client clients ev Hev Hin) as Hin1.
  assert (Hout : received client (snd (step toString clients ev))
                 = match ev with
                   | message ws payload =>
                       if Nat.eqb ws client then [] else [toString payload]
                   | _ => []
                   end).
  { destruct ev as [ws|ws|ws d]; try reflexivity.
    simpl. now apply received_member. }
  simpl. destruct (step toString clients ev) as [clients1 out1]. simpl in *.
  destruct (IH clients1 Hnd1 Hin1 Hevs) as [IH1 IH2].
  destruct (run toString clients1 evs) as [clients2 out2]. simpl in *.
  split; [assumption|].
  rewrite received_app, Hout, IH2.
  destruct ev as [ws|ws|ws d]; try reflexivity.
  now destruct (Nat.eqb ws client).
Qed.

End RelayOrder.

(** X1: whatever connections, closes and messages the relay has handled,
    its set holds no socket twice, so one incoming message is sent to no
    socket more than once. *)
Theorem relay_sends_one_copy
  (toString : Relay.Buffer -> string)
  (evs : list Relay.event) (ws : Relay.WebSocket) (payload : Relay.Buffer) :
  NoDup (fst (Relay.run toString [] evs))
  /\ NoDup (snd (Relay.step toString (fst (Relay.run toString [] evs))
                   (Relay.message ws payload))).
Proof.
  assert (H : NoDup (fst (Relay.run toString [] evs)))
    by (apply NoDup_run; constructor).
  split; [assumption|]. simpl. now apply NoDup_broadcast.
Qed.

(** X2: a socket that is in the set receives, as long as it does not
    close, exactly the messages the other sockets send, each once and in
    the order the relay got them, each as its [toString()], and none of its
    own. *)
Theorem relay_delivers_in_order
  (toString : Relay.Buffer -> string)
  (client : Relay.WebSocket) (clients : Relay.Clients) (evs : list Relay.event) :
  NoDup clients ->
  In client clients ->
  forallb (fun ev => negb (is_close_of client ev)) evs = true ->
  received client (snd (Relay.run toString clients evs))
  = map toString (sent_by_others client evs).
Proof.
  intros Hnd Hin Hevs. now apply received_run.
Qed.

Lemma relay_delivers_in_order_witness :
  received 2
    (snd (Relay.run Sample.text_of [1; 2; 3]
            [Relay.message 1 (Sample.frame "offer");
             Relay.message 2 (Sample.frame "answer");
             Relay.close 3; Relay.connection 4;
             Relay.message 4 (Sample.frame "candidate")]))
  = ["offer"; "candidate"].
Proof.
  apply (relay_delivers_in_order Sample.text_of 2 [1; 2; 3]
           [Relay.message 1 (Sample.frame "offer");
            Relay.message 2 (Sample.frame "answer");
            Relay.close 3; Relay.connection 4;
            Relay.message 4 (Sample.frame "candidate")]).
  - repeat constructor; simpl; intuition discriminate.
  - simpl. auto.
  - reflexivity.
Defined.

(* ================================================================== *)
(** ** What resuming a suspended function can do *)
(* ================================================================== *)

Lemma onDisconnect_frame (a : App) :
  makingOffer (fst (exec onDisconnect a)) = makingOffer a
  /\ ignoreOffer (fst (exec onDisconnect a)) = ignoreOffer a
  /\ suspended (fst (exec onDisconnect a)) = suspended a
  /\ reactions (fst (exec onDisconnect a)) = []
  /\ forall m, ~ In (webSocket_send m) (snd (exec onDisconnect a)).
Proof.
  rewrite exec_onDisconnect.
  destruct (disposeRef a) as [d|]; simpl; repeat split; auto.
  - intros m [H|[H|[H|H]]]; try discriminate.
    apply in_map_iff in H as (t & H & _). discriminate.
  - intros m [H|[]]. discriminate.
Qed.

Ltac resume_cases k r :=
  destruct k as [ |?ws| | |?data ?d|?data|?data| ]; try discriminate;
  destruct r as [[ |?d'|?ws'|?tracks]|]; cbn;
  unfold onmessage_candidate, addIceCandidate_catch, bind, read;
  repeat match goal with
    | |- context [RTCSdpType_eqb ?x ?y] => destruct (RTCSdpType_eqb x y)
    | |- context [data_candidate ?x] => destruct (data_candidate x)
    | |- context [candidate_throws ?x] => destruct (candidate_throws x)
    | |- context [negb (ignoreOffer ?x)] => destruct (ignoreOffer x) eqn:?
    end;
  cbn.

Ltac no_send :=
  let m := fresh "m" in
  let H := fresh "H" in
  intros m H; simpl in H;
  repeat (destruct H as [H|H]; try discriminate); try contradiction.

Section Resume.

Variable id : ParticipantId.

(** Resuming [makeOffer] or [onmessage]: the flags. *)
Lemma resume_engine_flags (pc : Platform) (k : cont) (r : settlement) (a : App) :
  is_onStartCall k = false ->
  ignoreOffer (snd (fst (resume id pc k r a))) = ignoreOffer a
  /\ reactions (snd (fst (resume id pc k r a))) = reactions a
  /\ releases (snd (resume id pc k r a)) = []
  /\ (is_makeOffer k = false ->
      makingOffer (snd (fst (resume id pc k r a))) = makingOffer a
      /\ forallb (fun k' => negb (is_makeOffer k'))
           match fst (fst (resume id pc k r a)) with
           | Some k' => [k']
           | None => []
           end = true)
  /\ (is_makeOffer k = true ->
      match fst (fst (resume id pc k r a)) with
      | Some k' =>
          is_makeOffer k' = true
          /\ makingOffer (snd (fst (resume id pc k r a))) = makingOffer a
      | None => makingOffer (snd (fst (resume id pc k r a))) = false
      end).
Proof.
  intros Hk. resume_cases k r; repeat split; auto; try discriminate.
Qed.

(** Resuming [makeOffer] or [onmessage]: the envelopes sent. *)
Lemma resume_engine_sends (pc : Platform) (k : cont) (r : settlement) (a : App)
  (m : SignalingData) :
  is_onStartCall k = false ->
  In (webSocket_send m) (snd (resume id pc k r a)) ->
  own_envelope id m.
Proof.
  intros Hk. resume_cases k r; intros H;
    repeat (destruct H as [H|H]; try discriminate); try contradiction;
    injection H as <-; split; auto.
Qed.

(** Resuming [onStartCall]. *)
Lemma resume_onStartCall_effects
  (pc : Platform) (k : cont) (r : settlement) (a : App) :
  is_onStartCall k = true ->
  suspended (snd (fst (resume id pc k r a))) = suspended a
  /\ (makingOffer (snd (fst (resume id pc k r a))) = true -> makingOffer a = true)
  /\ (status (snd (fst (resume id pc k r a))) = status a
      \/ status (snd (fst (resume id pc k r a))) = idle)
  /\ forallb (fun k' => negb (is_makeOffer k'))
       match fst (fst (resume id pc k r a)) with
       | Some k' => [k']
       | None => []
       end = true
  /\ forall m, ~ In (webSocket_send m) (snd (resume id pc k r a)).
Proof.
  intros Hk.
  assert (Hcatch :
    suspended (snd (fst (onStartCall_catch a))) = suspended a
    /\ (makingOffer (snd (fst (onStartCall_catch a))) = true -> makingOffer a = true)
    /\ (status (snd (fst (onStartCall_catch a))) = status a
        \/ status (snd (fst (onStartCall_catch a))) = idle)
    /\ forallb (fun k' => negb (is_makeOffer k'))
         match fst (fst (onStartCall_catch a)) with
         | Some k' => [k']
         | None => []
         end = true
    /\ forall m, ~ In (webSocket_send m) (snd (onStartCall_catch a))).
  { rewrite onStartCall_catch_eq. cbn [fst snd].
    destruct (onDisconnect_frame a) as (Hm & _ & Hs & _ & Hsend).
    rewrite Hm, Hs, onDisconnect_status. repeat split; auto.
    intros m [H|H]; [discriminate | now apply (Hsend m)]. }
  destruct k; try discriminate; destruct r as [[ |d'|ws'|tracks]|];
    cbn [resume onStartCall_resume]; try exact Hcatch;
    try (cbn; repeat split; auto; no_send).
  rewrite onStartCall_setup_eq.
  set (a0 := set_disposeRef _ _).
  destruct (onDisconnect_frame a) as (Hm & _ & Hs & _ & Hsend).
  destruct (onDisconnect_frame a0) as (Hm0 & _ & Hs0 & _ & Hsend0).
  assert (Hadd : forall l m, ~ In (webSocket_send m) (map addTrack l)).
  { intros l m H. apply in_map_iff in H as (t & H & _). discriminate. }
  destruct (setup_throws pc) as [[ | |j]|];
    try destruct (Nat.ltb j (List.length tracks));
    cbn [fst snd]; rewrite ?Hm, ?Hs, ?Hm0, ?Hs0, ?onDisconnect_status;
    repeat split; auto; try discriminate.
  - intros m [H|[H|H]]; try discriminate. now apply (Hsend m).
  - intros m [H|[H|[H|H]]]; try discriminate. now apply (Hsend m).
  - intros m [H|[H|H]]; try discriminate.
    apply in_app_or in H as [H|[H|H]]; try discriminate.
    + exact (Hadd _ m H).
    + now apply (Hsend0 m).
  - intros m [H|[H|H]]; try discriminate. exact (Hadd _ m H).
  - intros m [H|[H|H]]; try discriminate. exact (Hadd _ m H).
Qed.

End Resume.

(* ================================================================== *)
(** ** [makingOffer] while an offer is under way *)
(* ================================================================== *)

Lemma existsb_splice {A : Type} (p : A -> bool) (l next : list A) (n : nat) (k : A) :
  nth_error l n = Some k ->
  p k = false \/ existsb p next = true ->
  existsb p l = true ->
  existsb p (firstn n l ++ next ++ skipn (S n) l) = true.
Proof.
  intros Hn Hk Hl. rewrite <- (firstn_skipn_middle n l Hn) in Hl.
  rewrite existsb_app in Hl. cbn [existsb] in Hl. rewrite !existsb_app.
  apply orb_true_iff in Hl as [Hl|Hl]; [now rewrite Hl|].
  apply orb_true_iff in Hl as [Hl|Hl].
  - destruct Hk as [Hk|Hk]; [congruence|].
    rewrite Hk. now rewrite orb_true_r.
  - rewrite Hl. now rewrite !orb_true_r.
Qed.

Lemma nth_error_forallb {A : Type} (p : A -> bool) (l : list A) (n : nat) (k : A) :
  forallb p l = true -> nth_error l n = Some k -> p k = true.
Proof.
  intros Hl Hn. rewrite forallb_forall in Hl. apply Hl.
  now apply nth_error_In with n.
Qed.

Section Flag.

Variable id : ParticipantId.

Lemma flag_ok_grow (a : App) (k : cont) (f : App -> App) :
  makingOffer (f a) = makingOffer a ->
  suspended (f a) = suspended a ->
  flag_ok a = true ->
  flag_ok (set_suspended (suspended a ++ [k]) (f a)) = true.
Proof.
  unfold flag_ok, offer_in_flight. cbn. intros -> _ H.
  rewrite existsb_app. destruct (makingOffer a); [|reflexivity].
  simpl in *. now rewrite H.
Qed.

Lemma flag_ok_settled (pc : Platform) (n : nat) (r : settlement) (a : App) :
  flag_ok a = true -> flag_ok (fst (step id a (pc, settled n r))) = true.
Proof.
  intros H. rewrite step_settled.
  destruct (nth_error (suspended a) n) as [k|] eqn:Hn;
    [|now rewrite (exec_settle_none id pc n r a Hn)].
  rewrite (exec_settle id pc n r a k Hn).
  destruct (is_onStartCall k) eqn:Hsc.
  - destruct (resume_onStartCall_effects id pc k r a Hsc)
      as (Hs & Hm & _ & Hnext & _).
    destruct (resume id pc k r a) as [[next a'] out]. cbn [fst snd] in *.
    unfold flag_ok, offer_in_flight in *. cbn. rewrite Hs.
    destruct (makingOffer a') eqn:Hm'; [|reflexivity].
    rewrite (Hm eq_refl) in H. simpl in *.
    apply (existsb_splice _ _ _ n k Hn); [|assumption].
    left. now destruct k.
  - destruct (resume_engine_flags id pc k r a Hsc)
      as (_ & _ & _ & Hno & Hmo).
    pose proof (resume_engine_frame id pc k r a Hsc)
      as (next & a' & out & Heq & _ & _ & _ & Hs & _).
    rewrite Heq in *. cbn [fst snd] in *.
    unfold flag_ok, offer_in_flight in *. cbn. rewrite Hs.
    destruct (is_makeOffer k) eqn:Hk.
    + specialize (Hmo eq_refl). destruct next as [k'|].
      * destruct Hmo as [Hk' _].
        rewrite !existsb_app. simpl. rewrite Hk'. simpl.
        rewrite orb_true_r. now destruct (makingOffer a').
      * now rewrite Hmo.
    + destruct (Hno eq_refl) as [Hm _]. rewrite Hm.
      destruct (makingOffer a); [|reflexivity]. simpl in *.
      apply (existsb_splice _ _ _ n k Hn); [now left | assumption].
Qed.

Lemma flag_ok_onDisconnect (a : App) :
  flag_ok a = true -> flag_ok (fst (exec onDisconnect a)) = true.
Proof.
  destruct (onDisconnect_frame a) as (Hm & _ & Hs & _).
  unfold flag_ok, offer_in_flight. now rewrite Hm, Hs.
Qed.

Lemma flag_ok_step (a : App) (pcev : Platform * event) :
  flag_ok a = true -> flag_ok (fst (step id a pcev)) = true.
Proof.
  intros H. destruct pcev as [pc ev]. destruct ev.
  - apply (flag_ok_grow a _ (set_status calling)); auto.
  - now apply flag_ok_onDisconnect.
  - unfold step, exec, handle, onReaction, bind, read. cbn.
    now destruct (sendReactionRef a).
  - unfold flag_ok, offer_in_flight. cbn. rewrite existsb_app. simpl.
    now rewrite orb_true_r.
  - change (step id a (pc, iceconnectionstatechange))
      with (exec (oniceconnectionstatechange pc) a).
    rewrite exec_oniceconnectionstatechange.
    destruct (iceConnectionState pc); try exact H.
    now apply flag_ok_onDisconnect.
  - destruct candidate; exact H.
  - exact H.
  - unfold step, exec, handle, ondatachannel. cbn.
    destruct (String.eqb label "reactions"); exact H.
  - rewrite step_message.
    destruct (data_description data) as [d|] eqn:Hd.
    + rewrite (exec_onmessage_description id pc data d a Hd). cbv zeta.
      destruct (negb (polite (collator pc) (data_id data) id) && _).
      * destruct (makingOffer a) eqn:Hm; cbn [fst].
        -- exact H.
        -- unfold flag_ok, offer_in_flight. cbn. rewrite existsb_app. simpl.
           now rewrite orb_true_r.
      * cbn [fst]. apply (flag_ok_grow a _ (set_ignoreOffer false)); auto.
    + unfold exec, start, onmessage, onmessage_candidate,
        addIceCandidate_catch, bind, read.
      rewrite Hd. cbn.
      repeat match goal with
        | |- context [data_candidate ?x] => destruct (data_candidate x)
        | |- context [candidate_throws ?x] => destruct (candidate_throws x)
        | |- context [negb (ignoreOffer ?x)] => destruct (ignoreOffer x) eqn:?
        end; cbn; try exact H.
      apply (flag_ok_grow a _ (fun a => a)); auto.
  - now apply flag_ok_settled.
Qed.

End Flag.

(** X3: [makingOffer] never stays stuck.  In every state the component can
    reach, the flag is true only while an invocation of [makeOffer] is
    suspended at one of its [await]s; in particular it is false whenever
    none is under way. *)
Theorem makingOffer_only_while_offering
  (id : ParticipantId) (evs : list (Platform * event)) :
  flag_ok (fst (run id initial evs)) = true
  /\ (offer_in_flight (fst (run id initial evs)) = false ->
      makingOffer (fst (run id initial evs)) = false).
Proof.
  assert (H : forall a, flag_ok a = true -> flag_ok (fst (run id a evs)) = true).
  { induction evs as [|ev evs' IH]; intros a Ha; [exact Ha|].
    rewrite run_cons. cbn [fst]. apply IH. now apply flag_ok_step. }
  specialize (H initial eq_refl). split; [exact H|].
  unfold flag_ok in H. intros Hoff. rewrite Hoff in H.
  now destruct (makingOffer (fst (run id initial evs))).
Qed.

Lemma makingOffer_only_while_offering_witness :
  makingOffer
    (fst (run "aaa" initial
            (Sample.setup
             ++ [(Sample.platform, negotiationneeded);
                 (Sample.platform, settled 0 rejected)])))
  = false.
Proof.
  apply (makingOffer_only_while_offering "aaa"
           (Sample.setup
            ++ [(Sample.platform, negotiationneeded);
                (Sample.platform, settled 0 rejected)])).
  reflexivity.
Defined.

(* ================================================================== *)
(** ** Envelopes sent, status, and what a negotiation leaves alone *)
(* ================================================================== *)

Ltac not_sent :=
  let H := fresh "H" in
  solve [intros H; simpl in H;
         repeat (destruct H as [H|H]; try discriminate); try contradiction].

Section Sends.

Variable id : ParticipantId.

Lemma sends_step (a : App) (pcev : Platform * event) (m : SignalingData) :
  In (webSocket_send m) (snd (step id a pcev)) -> own_envelope id m.
Proof.
  destruct pcev as [pc ev]. destruct ev.
  - not_sent.
  - change (step id a (pc, click_EndCall)) with (exec onDisconnect a).
    intros H. now apply (proj2 (proj2 (proj2 (proj2 (onDisconnect_frame a))))) in H.
  - unfold step, exec, handle, onReaction, bind, read. cbn.
    destruct (sendReactionRef a); not_sent.
  - not_sent.
  - change (step id a (pc, iceconnectionstatechange))
      with (exec (oniceconnectionstatechange pc) a).
    rewrite exec_oniceconnectionstatechange.
    destruct (iceConnectionState pc); try not_sent.
    intros H. now apply (proj2 (proj2 (proj2 (proj2 (onDisconnect_frame a))))) in H.
  - destruct candidate as [c|]; [|not_sent].
    intros [H|[]]. injection H as <-. split; auto.
  - not_sent.
  - unfold step, exec, handle, ondatachannel. cbn.
    destruct (String.eqb label "reactions"); not_sent.
  - rewrite step_message.
    destruct (data_description data) as [d|] eqn:Hd.
    + rewrite (exec_onmessage_description id pc data d a Hd). cbv zeta.
      repeat match goal with
        | |- context [if ?b then _ else _] => destruct b
        end; not_sent.
    + unfold exec, start, onmessage, onmessage_candidate,
        addIceCandidate_catch, bind, read.
      rewrite Hd. cbn.
      repeat match goal with
        | |- context [data_candidate ?x] => destruct (data_candidate x)
        | |- context [candidate_throws ?x] => destruct (candidate_throws x)
        | |- context [negb (ignoreOffer ?x)] => destruct (ignoreOffer x) eqn:?
        end; not_sent.
  - rewrite step_settled.
    destruct (nth_error (suspended a) n) as [k|] eqn:Hn;
      [|rewrite (exec_settle_none id pc n r a Hn); not_sent].
    rewrite (exec_settle id pc n r a k Hn).
    destruct (is_onStartCall k) eqn:Hsc.
    + pose proof (resume_onStartCall_effects id pc k r a Hsc) as (_ & _ & _ & _ & Hno).
      destruct (resume id pc k r a) as [[next a'] out]. cbn [fst snd] in *.
      intros H. now apply Hno in H.
    + pose proof (resume_engine_sends id pc k r a m Hsc) as Hsend.
      destruct (resume id pc k r a) as [[next a'] out]. cbn [fst snd] in *.
      exact Hsend.
Qed.

Lemma status_step (a : App) (pc : Platform) (ev : event) :
  status (fst (step id a (pc, ev))) = status a
  \/ status (fst (step id a (pc, ev))) = idle
  \/ (is_click_StartCall ev = true /\ status (fst (step id a (pc, ev))) = calling)
  \/ (is_track ev = true /\ status (fst (step id a (pc, ev))) = in_progress).
Proof.
  destruct ev.
  - right. right. left. now split.
  - right. left. apply onDisconnect_status.
  - left. unfold step, exec, handle, onReaction, bind, read. cbn.
    now destruct (sendReactionRef a).
  - now left.
  - change (step id a (pc, iceconnectionstatechange))
      with (exec (oniceconnectionstatechange pc) a).
    rewrite exec_oniceconnectionstatechange.
    destruct (iceConnectionState pc); try (now left).
    right. left. apply onDisconnect_status.
  - left. now destruct candidate.
  - right. right. right. now split.
  - left. unfold step, exec, handle, ondatachannel. cbn.
    now destruct (String.eqb label "reactions").
  - left. rewrite step_message.
    destruct (data_description data) as [d|] eqn:Hd.
    + rewrite (exec_onmessage_description id pc data d a Hd). cbv zeta.
      repeat match goal with
        | |- context [if ?b then _ else _] => destruct b
        end; reflexivity.
    + unfold exec, start, onmessage, onmessage_candidate,
        addIceCandidate_catch, bind, read.
      rewrite Hd. cbn.
      repeat match goal with
        | |- context [data_candidate ?x] => destruct (data_candidate x)
        | |- context [candidate_throws ?x] => destruct (candidate_throws x)
        | |- context [negb (ignoreOffer ?x)] => destruct (ignoreOffer x) eqn:?
        end; reflexivity.
  - rewrite step_settled.
    destruct (nth_error (suspended a) n) as [k|] eqn:Hn;
      [|rewrite (exec_settle_none id pc n r a Hn); now left].
    rewrite (exec_settle id pc n r a k Hn).
    destruct (is_onStartCall k) eqn:Hsc.
    + pose proof (resume_onStartCall_effects id pc k r a Hsc) as (_ & _ & Hst & _).
      destruct (resume id pc k r a) as [[next a'] out]. cbn [fst snd] in *.
      destruct Hst as [Hst|Hst]; [now left | right; now left].
    + pose proof (resume_engine_frame id pc k r a Hsc)
        as (next & a' & out & Heq & Hst & _).
      rewrite Heq. cbn. now left.
Qed.

End Sends.

(** X4: every envelope the component ever sends on the socket carries its
    own [id], and never both a description and a candidate. *)
Theorem envelopes_carry_own_id
  (id : ParticipantId) (a : App) (evs : list (Platform * event))
  (m : SignalingData) :
  In (webSocket_send m) (snd (run id a evs)) ->
  data_id m = id /\ (data_description m = None \/ data_candidate m = None).
Proof.
  revert a. induction evs as [|ev evs IH]; intros a; [intros []|].
  rewrite run_cons. cbn [snd]. intros H.
  apply in_app_or in H as [H|H].
  - exact (sends_step id a ev m H).
  - exact (IH _ H).
Qed.

Lemma envelopes_carry_own_id_witness :
  data_id (Sample.description_from "aaa" Sample.offer1) = "aaa"
  /\ (data_description (Sample.description_from "aaa" Sample.offer1) = None
      \/ data_candidate (Sample.description_from "aaa" Sample.offer1) = None).
Proof.
  apply (envelopes_carry_own_id "aaa" (Sample.ready "aaa") Sample.two_firings).
  vm_compute. tauto.
Defined.

(** X5: the status changes only in three ways: a click on "Start call" makes
    it [calling], a [track] event makes it [in_progress], and anything else
    that changes it makes it [idle].  So over any run without a [track]
    event the component that was not [in_progress] is not at the end, and
    without a click on "Start call" one that was not [calling] is not. *)
Theorem status_changes
  (id : ParticipantId) (a : App) (evs : list (Platform * event)) :
  (forallb (fun ev => negb (is_track ev)) (map snd evs) = true ->
   status a <> in_progress ->
   status (fst (run id a evs)) <> in_progress)
  /\ (forallb (fun ev => negb (is_click_StartCall ev)) (map snd evs) = true ->
      status a <> calling ->
      status (fst (run id a evs)) <> calling).
Proof.
  split; revert a; induction evs as [|[pc ev] evs IH]; intros a Hevs Ha;
    try exact Ha; simpl in Hevs; apply andb_true_iff in Hevs as [Hev Hevs];
    rewrite run_cons; cbn [fst]; apply IH; try assumption;
    destruct (status_step id a pc ev) as [H|[H|[[Hc H]|[Ht H]]]];
    rewrite H; try assumption; try discriminate.
  - rewrite Ht in Hev. discriminate.
  - rewrite Hc in Hev. discriminate.
Qed.

Lemma status_changes_witness :
  status
    (fst (run "aaa" (Sample.ready "aaa")
            [(Sample.platform, negotiationneeded);
             (Sample.platform, click_reaction "heart")]))
  <> in_progress.
Proof.
  apply (status_changes "aaa" (Sample.ready "aaa")
           [(Sample.platform, negotiationneeded);
            (Sample.platform, click_reaction "heart")]).
  - reflexivity.
  - vm_compute. discriminate.
Defined.

(* ================================================================== *)
(** ** Descriptions and candidates, further cases *)
(* ================================================================== *)

Lemma RTCSdpType_eqb_neq (t : RTCSdpType) :
  t <> offer -> RTCSdpType_eqb t offer = false.
Proof. destruct t; [contradiction | reflexivity..]. Qed.

(** X6: a description that is not an offer (an answer) is never ignored and
    never rolled back for, whatever the flags, the signaling state and the
    two ids: the handler clears [ignoreOffer], calls
    [setRemoteDescription] with it, and once that has succeeded ends
    without sending anything. *)
Theorem answer_is_applied_and_not_answered
  (id : ParticipantId) (pc pc1 : Platform) (a : App) (data : SignalingData)
  (d : RTCSessionDescription) (v : value) :
  data_description data = Some d ->
  data_candidate data = None ->
  type d <> offer ->
  step id a (pc, message data)
  = (set_suspended (suspended a ++ [onmessage_setRemoteDescription data d])
       (set_ignoreOffer false a),
     [setRemoteDescription d])
  /\ run id a [(pc, message data);
               (pc1, settled (List.length (suspended a)) (fulfilled v))]
     = (set_ignoreOffer false a, [setRemoteDescription d]).
Proof.
  intros Hd Hc Ht. apply RTCSdpType_eqb_neq in Ht.
  assert (Hstep : step id a (pc, message data)
                  = (set_suspended
                       (suspended a ++ [onmessage_setRemoteDescription data d])
                       (set_ignoreOffer false a),
                     [setRemoteDescription d])).
  { rewrite step_message, (exec_onmessage_description id pc data d a Hd).
    rewrite Ht. cbn. now rewrite andb_false_r. }
  split; [exact Hstep|].
  rewrite !run_cons, Hstep. cbn [fst snd].
  set (a1 := set_suspended _ _).
  rewrite (step_settled_last id pc1 _ a1 (suspended a) _ eq_refl).
  cbn [resume onmessage_resume]. rewrite Ht.
  unfold onmessage_candidate. rewrite Hc. cbn.
  rewrite (splice_last a1 (suspended a) _ _ eq_refl). cbn.
  now rewrite app_nil_r.
Qed.

Lemma answer_is_applied_and_not_answered_witness :
  run "aaa" (set_ignoreOffer true (Sample.offered "aaa"))
    [(Sample.signaling have_local_offer,
      message (Sample.description_from "bbb" Sample.answer1));
     (Sample.signaling stable, settled 0 (fulfilled undefined))]
  = (Sample.offered "aaa", [setRemoteDescription Sample.answer1]).
Proof.
  apply (answer_is_applied_and_not_answered "aaa"
           (Sample.signaling have_local_offer) (Sample.signaling stable)
           (set_ignoreOffer true (Sample.offered "aaa"))
           (Sample.description_from "bbb" Sample.answer1)
           Sample.answer1 undefined);
    [reflexivity | reflexivity | discriminate].
Defined.

(** X7: an offer that arrives while no offer is being made and the
    signaling state is stable is applied without rollback and answered,
    by the polite and by the impolite peer alike. *)
Theorem offer_without_collision_is_answered
  (id : ParticipantId) (pc0 pc1 pc2 pc3 : Platform) (a : App)
  (data : SignalingData) (d ans : RTCSessionDescription) (v1 v3 : value) :
  data_description data = Some d ->
  data_candidate data = None ->
  type d = offer ->
  makingOffer a = false ->
  signalingState pc0 = stable ->
  ignoreOffer (fst (step id a (pc0, message data))) = false
  /\ snd (run id a [(pc0, message data);
                    (pc1, settled (List.length (suspended a)) (fulfilled v1));
                    (pc2, settled (List.length (suspended a))
                            (fulfilled (a_description ans)));
                    (pc3, settled (List.length (suspended a)) (fulfilled v3))])
     = [setRemoteDescription d;
        createAnswer;
        setLocalDescription ans;
        webSocket_send {| data_id := id;
                          data_description := localDescription pc3;
                          data_candidate := None |}].
Proof.
  intros Hd Hc Ht Hm Hs.
  assert (Hstep : step id a (pc0, message data)
                  = (set_suspended
                       (suspended a ++ [onmessage_setRemoteDescription data d])
                       (set_ignoreOffer false a),
                     [setRemoteDescription d])).
  { rewrite step_message, (exec_onmessage_description id pc0 data d a Hd).
    rewrite Ht, Hm, Hs. cbn. now rewrite andb_false_r. }
  split; [now rewrite Hstep|].
  rewrite run_cons, Hstep. cbn [fst snd].
  set (a1 := set_suspended _ _).
  rewrite (answer_after_setRemoteDescription id pc1 pc2 pc3 a1 (suspended a)
             data d ans v1 v3 eq_refl Ht Hc).
  reflexivity.
Qed.

Lemma offer_without_collision_is_answered_witness :
  snd (run "bbb" (Sample.ready "bbb")
         [(Sample.signaling stable,
           message (Sample.description_from "aaa" Sample.offer1));
          (Sample.signaling have_remote_offer, settled 0 (fulfilled undefined));
          (Sample.signaling have_remote_offer,
           settled 0 (fulfilled (a_description Sample.answer1)));
          (Sample.described stable Sample.answer1, settled 0 (fulfilled undefined))])
  = [setRemoteDescription Sample.offer1;
     createAnswer;
     setLocalDescription Sample.answer1;
     webSocket_send (Sample.description_from "bbb" Sample.answer1)].
Proof.
  apply (offer_without_collision_is_answered "bbb"
           (Sample.signaling stable)
           (Sample.signaling have_remote_offer)
           (Sample.signaling have_remote_offer)
           (Sample.described stable Sample.answer1)
           (Sample.ready "bbb")
           (Sample.description_from "aaa" Sample.offer1)
           Sample.offer1 Sample.answer1 undefined undefined);
    reflexivity.
Defined.

(** X8: candidates from one peer to the other.  For a candidate the peer
    connection reports, [onicecandidate] sends one envelope and changes
    nothing; whatever it sends, the [onmessage] of the receiving peer calls
    [addIceCandidate] with that same candidate and nothing else, leaving its
    flags alone.  The end-of-candidates signal ([null]) is not sent. *)
Theorem candidate_reaches_the_peer
  (idA idB : ParticipantId) (pcA pcB : Platform) (a b : App)
  (c : RTCIceCandidate) :
  candidate_throws pcB = false ->
  fst (step idA a (pcA, icecandidate (Some c))) = a
  /\ (exists m, snd (step idA a (pcA, icecandidate (Some c))) = [webSocket_send m])
  /\ (forall m,
         In (webSocket_send m) (snd (step idA a (pcA, icecandidate (Some c)))) ->
         step idB b (pcB, message m)
         = (set_suspended (suspended b ++ [onmessage_addIceCandidate]) b,
            [addIceCandidate c]))
  /\ step idA a (pcA, icecandidate None) = (a, []).
Proof.
  intros Ht. split; [reflexivity|]. split; [eexists; reflexivity|].
  split; [|reflexivity].
  intros m [H|[]]. injection H as <-.
  rewrite step_message.
  unfold exec, start, onmessage, onmessage_candidate, bind.
  cbn. rewrite Ht. cbn. reflexivity.
Qed.

Lemma candidate_reaches_the_peer_witness :
  step "bbb" (Sample.ready "bbb")
    (Sample.platform, message (Sample.candidate_from "aaa" "candidate:1"))
  = (set_suspended [onmessage_addIceCandidate] (Sample.ready "bbb"),
     [addIceCandidate "candidate:1"]).
Proof.
  apply (candidate_reaches_the_peer "aaa" "bbb" Sample.platform Sample.platform
           (Sample.ready "aaa") (Sample.ready "bbb") "candidate:1").
  - reflexivity.
  - left. reflexivity.
Defined.

(** X9: when the inbound envelope carries the peer's own id (two peers with
    the same id), [polite] is false, so on both sides a colliding offer is
    ignored and none is rolled back. *)
Theorem equal_ids_are_both_impolite
  (id : ParticipantId) (pc : Platform) (a : App) (data : SignalingData)
  (d : RTCSessionDescription) :
  data_id data = id ->
  data_description data = Some d ->
  type d = offer ->
  makingOffer a || negb (is_stable (signalingState pc)) = true ->
  polite (collator pc) (data_id data) id = false
  /\ ignoreOffer (fst (step id a (pc, message data))) = true
  /\ ~ In (setLocalDescription rollback_description)
          (snd (step id a (pc, message data))).
Proof.
  intros Hid Hd Ht Hc.
  assert (Hp : polite (collator pc) (data_id data) id = false)
    by (rewrite Hid; apply polite_irrefl).
  split; [exact Hp|].
  rewrite step_message, (exec_onmessage_description id pc data d a Hd).
  rewrite Ht, Hp, Hc. cbn.
  destruct (makingOffer a); cbn; split; auto.
  intros [H|[]]. discriminate.
Qed.

Lemma equal_ids_are_both_impolite_witness :
  ignoreOffer
    (fst (step "aaa" (Sample.offered "aaa")
            (Sample.signaling have_local_offer,
             message (Sample.description_from "aaa" Sample.offer2))))
  = true.
Proof.
  apply (equal_ids_are_both_impolite "aaa"
           (Sample.signaling have_local_offer) (Sample.offered "aaa")
           (Sample.description_from "aaa" Sample.offer2) Sample.offer2);
    reflexivity.
Defined.

(* ================================================================== *)
(** ** Setup and teardown *)
(* ================================================================== *)

(** X10: when the setup goes through, what [onDisconnect] later releases is
    exactly what the setup acquired: the socket [createSocket] returned, the
    peer connection it created, and every track of the stream it added, in
    the order they were added; both flags start out false. *)
Theorem teardown_releases_what_setup_acquired
  (id : ParticipantId) (pc : Platform) (a : App) (n : nat)
  (ws : Handle) (tracks : list Handle) :
  nth_error (suspended a) n = Some (onStartCall_getUserMedia ws) ->
  setup_throws pc = None ->
  let a1 := fst (step id a (pc, settled n (fulfilled (a_stream tracks)))) in
  snd (step id a (pc, settled n (fulfilled (a_stream tracks))))
  = new_RTCPeerConnection :: createDataChannel "reactions" :: map addTrack tracks
  /\ makingOffer a1 = false
  /\ ignoreOffer a1 = false
  /\ sendReactionRef a1 = Some (new_dataChannel pc)
  /\ status a1 = status a
  /\ snd (exec onDisconnect a1)
     = audio_play "/alert-stop.mp3"
         :: webSocket_close ws
         :: peerConnection_close (new_peerConnection pc)
         :: map track_stop tracks
  /\ sendReactionRef (fst (exec onDisconnect a1)) = None
  /\ disposeRef (fst (exec onDisconnect a1)) = None.
Proof.
  intros Hn Ht a1. subst a1.
  rewrite step_settled, (exec_settle id pc n _ a _ Hn).
  cbn [resume onStartCall_resume]. rewrite onStartCall_setup_eq, Ht.
  cbn [fst snd]. rewrite exec_onDisconnect. cbn.
  repeat split; reflexivity.
Qed.

Lemma teardown_releases_what_setup_acquired_witness :
  snd (exec onDisconnect (Sample.ready "aaa"))
  = [audio_play "/alert-stop.mp3"; webSocket_close 1; peerConnection_close 2;
     track_stop 10; track_stop 11].
Proof.
  apply (teardown_releases_what_setup_acquired "aaa" Sample.platform
           (fst (run "aaa" initial
                   [(Sample.platform, click_StartCall);
                    (Sample.platform, settled 0 (fulfilled (a_socket 1)))]))
           0 1 [10; 11]);
    reflexivity.
Defined.

(** X11: when the setup fails before the dispose closure is stored
    ([getUserMedia] rejects, or creating the peer connection or the data
    channel throws) and no closure is left from before, the [catch] releases
    nothing: the socket opened for this call is not closed.  When it fails
    after (an [addTrack] throws), everything acquired is released. *)
Theorem setup_failure_releases
  (id : ParticipantId) (pc : Platform) (a : App) (n : nat)
  (ws : Handle) (tracks : list Handle) (j : nat) :
  nth_error (suspended a) n = Some (onStartCall_getUserMedia ws) ->
  disposeRef a = None ->
  releases (snd (step id a (pc, settled n rejected))) = []
  /\ (setup_throws pc = Some at_RTCPeerConnection
      \/ setup_throws pc = Some at_createDataChannel ->
      releases (snd (step id a (pc, settled n (fulfilled (a_stream tracks))))) = []
      /\ disposeRef (fst (step id a (pc, settled n (fulfilled (a_stream tracks)))))
         = None)
  /\ (setup_throws pc = Some (at_addTrack j) ->
      j < List.length tracks ->
      releases (snd (step id a (pc, settled n (fulfilled (a_stream tracks)))))
      = webSocket_close ws
          :: peerConnection_close (new_peerConnection pc)
          :: map track_stop tracks).
Proof.
  intros Hn Hd. split; [|split].
  - rewrite step_settled, (exec_settle id pc n _ a _ Hn).
    cbn [resume onStartCall_resume]. rewrite onStartCall_catch_eq.
    cbn [fst snd]. rewrite exec_onDisconnect, Hd. reflexivity.
  - intros Ht. rewrite step_settled, (exec_settle id pc n _ a _ Hn).
    cbn [resume onStartCall_resume]. rewrite onStartCall_setup_eq.
    destruct Ht as [-> | ->]; cbn [fst snd];
      rewrite exec_onDisconnect, Hd; (split; [reflexivity | exact Hd]).
  - intros Ht Hj. rewrite step_settled, (exec_settle id pc n _ a _ Hn).
    cbn [resume onStartCall_resume]. rewrite onStartCall_setup_eq, Ht.
    apply Nat.ltb_lt in Hj. rewrite Hj. cbn [fst snd].
    rewrite exec_onDisconnect. cbn.
    assert (Hadd : forall l, releases (map addTrack l ++ console_error
                     :: audio_play "/alert-stop.mp3"
                     :: webSocket_close ws
                     :: peerConnection_close (new_peerConnection pc)
                     :: map track_stop tracks)
                   = webSocket_close ws
                       :: peerConnection_close (new_peerConnection pc)
                       :: map track_stop tracks).
    { induction l as [|t l IH]; [|exact IH].
      cbn. f_equal. f_equal. apply releases_track_stop. }
    apply Hadd.
Qed.

Lemma setup_failure_releases_witness :
  releases
    (snd (step "aaa"
            (fst (run "aaa" initial
                    [(Sample.platform, click_StartCall);
                     (Sample.platform, settled 0 (fulfilled (a_socket 1)))]))
            (Sample.throwing at_createDataChannel,
             settled 0 (fulfilled (a_stream [10; 11])))))
  = []
  /\ releases
       (snd (step "aaa"
               (fst (run "aaa" initial
                       [(Sample.platform, click_StartCall);
                        (Sample.platform, settled 0 (fulfilled (a_socket 1)))]))
               (Sample.throwing (at_addTrack 0),
                settled 0 (fulfilled (a_stream [10; 11])))))
     = [webSocket_close 1; peerConnection_close 2; track_stop 10; track_stop 11].
Proof.
  split.
  - apply (setup_failure_releases "aaa" (Sample.throwing at_createDataChannel)
             (fst (run "aaa" initial
                     [(Sample.platform, click_StartCall);
                      (Sample.platform, settled 0 (fulfilled (a_socket 1)))]))
             0 1 [10; 11] 0); [reflexivity | reflexivity | now right].
  - apply (setup_failure_releases "aaa" (Sample.throwing (at_addTrack 0))
             (fst (run "aaa" initial
                     [(Sample.platform, click_StartCall);
                      (Sample.platform, settled 0 (fulfilled (a_socket 1)))]))
             0 1 [10; 11] 0); [reflexivity | reflexivity | reflexivity | simpl; lia].
Defined.

(* ================================================================== *)
(** ** How [makeOffer] and [onmessage] end *)
(* ================================================================== *)

(** X12: an invocation of [makeOffer] started by [negotiationneeded] and
    left to run alone.  If [createOffer] or [setLocalDescription] rejects,
    the error is logged once and no envelope is sent; if both succeed, one
    envelope with the local description is sent.  In all three cases the
    state at the end is the one at the start with [makingOffer] false. *)
Theorem makeOffer_outcomes
  (id : ParticipantId) (pc0 pc1 pc2 : Platform) (a : App)
  (d : RTCSessionDescription) (v : value) :
  let n := List.length (suspended a) in
  run id a [(pc0, negotiationneeded); (pc1, settled n rejected)]
  = (set_makingOffer false a, [createOffer; console_error])
  /\ run id a [(pc0, negotiationneeded);
               (pc1, settled n (fulfilled (a_description d)));
               (pc2, settled n rejected)]
     = (set_makingOffer false a,
        [createOffer; setLocalDescription d; console_error])
  /\ run id a [(pc0, negotiationneeded);
               (pc1, settled n (fulfilled (a_description d)));
               (pc2, settled n (fulfilled v))]
     = (set_makingOffer false a,
        [createOffer; setLocalDescription d;
         webSocket_send {| data_id := id;
                           data_description := localDescription pc2;
                           data_candidate := None |}]).
Proof.
  intros n. subst n.
  assert (Hstep : forall pc, step id a (pc, negotiationneeded)
                  = (set_suspended (suspended a ++ [makeOffer_createOffer])
                       (set_makingOffer true a),
                     [createOffer])) by reflexivity.
  set (a1 := set_suspended (suspended a ++ [makeOffer_createOffer])
               (set_makingOffer true a)) in Hstep.
  assert (H1 : step id a1 (pc1, settled (List.length (suspended a))
                                  (fulfilled (a_description d)))
               = (set_suspended (suspended a ++ [makeOffer_setLocalDescription])
                    (set_makingOffer true a),
                  [setLocalDescription d])).
  { rewrite (step_settled_last id pc1 _ a1 (suspended a) _ eq_refl). cbn.
    now rewrite (splice_last a1 (suspended a) _ _ eq_refl). }
  set (a2 := set_suspended (suspended a ++ [makeOffer_setLocalDescription])
               (set_makingOffer true a)) in H1.
  assert (R1 : resume id pc1 makeOffer_createOffer rejected a1
               = (None, set_makingOffer false a1, [console_error]))
    by reflexivity.
  assert (R2 : resume id pc2 makeOffer_setLocalDescription rejected a2
               = (None, set_makingOffer false a2, [console_error]))
    by reflexivity.
  assert (R3 : resume id pc2 makeOffer_setLocalDescription (fulfilled v) a2
               = (None, set_makingOffer false a2,
                  [webSocket_send {| data_id := id;
                                     data_description := localDescription pc2;
                                     data_candidate := None |}]))
    by reflexivity.
  split; [|split].
  - rewrite !run_cons, Hstep. cbn [fst snd].
    rewrite (step_settled_last id pc1 _ a1 (suspended a) _ eq_refl), R1.
    rewrite (splice_last (set_makingOffer false a1) (suspended a)
               makeOffer_createOffer None eq_refl).
    cbn. now rewrite app_nil_r.
  - rewrite !run_cons, Hstep. cbn [fst snd]. rewrite H1. cbn [fst snd].
    rewrite (step_settled_last id pc2 _ a2 (suspended a) _ eq_refl), R2.
    rewrite (splice_last (set_makingOffer false a2) (suspended a)
               makeOffer_setLocalDescription None eq_refl).
    cbn. now rewrite app_nil_r.
  - rewrite !run_cons, Hstep. cbn [fst snd]. rewrite H1. cbn [fst snd].
    rewrite (step_settled_last id pc2 _ a2 (suspended a) _ eq_refl), R3.
    rewrite (splice_last (set_makingOffer false a2) (suspended a)
               makeOffer_setLocalDescription None eq_refl).
    cbn. now rewrite app_nil_r.
Qed.

(** X13: a rejection of [setRemoteDescription] (or of the rollback beside
    it), of [createAnswer] or of [setLocalDescription] in [onmessage] ends
    the handler on the spot: nothing is logged, nothing is sent, a candidate
    in the same envelope is not applied, and the state is unchanged but for
    the handler having ended. *)
Theorem description_failure_ends_handler_silently
  (id : ParticipantId) (pc : Platform) (a : App) (n : nat) (k : cont) :
  nth_error (suspended a) n = Some k ->
  is_description_await k = true ->
  step id a (pc, settled n rejected) = (splice n None a, []).
Proof.
  intros Hn Hk. rewrite step_settled, (exec_settle id pc n rejected a k Hn).
  destruct k; try discriminate; reflexivity.
Qed.

Lemma description_failure_ends_handler_silently_witness :
  step "bbb"
    (fst (step "bbb" (Sample.ready "bbb")
            (Sample.platform,
             message {| data_id := "aaa";
                        data_description := Some Sample.offer1;
                        data_candidate := Some "candidate:1" |})))
    (Sample.platform, settled 0 rejected)
  = (set_ignoreOffer false (Sample.ready "bbb"), []).
Proof.
  apply (description_failure_ends_handler_silently "bbb" Sample.platform
           (fst (step "bbb" (Sample.ready "bbb")
                   (Sample.platform,
                    message {| data_id := "aaa";
                               data_description := Some Sample.offer1;
                               data_candidate := Some "candidate:1" |})))
           0
           (onmessage_setRemoteDescription
              {| data_id := "aaa";
                 data_description := Some Sample.offer1;
                 data_candidate := Some "candidate:1" |} Sample.offer1));
    reflexivity.
Defined.

(** X14: nothing in a negotiation touches the call itself.  An event of the
    negotiation ([negotiationneeded], a discovered candidate, an inbound
    envelope, a settlement that resumes [makeOffer] or [onmessage]) leaves
    status, reactions and both refs as they are and releases nothing,
    whether the calls on the peer connection succeed or fail. *)
Theorem negotiation_leaves_the_call_alone
  (id : ParticipantId) (pc : Platform) (a : App) (ev : event) :
  negotiation_event a ev = true ->
  status (fst (step id a (pc, ev))) = status a
  /\ reactions (fst (step id a (pc, ev))) = reactions a
  /\ sendReactionRef (fst (step id a (pc, ev))) = sendReactionRef a
  /\ disposeRef (fst (step id a (pc, ev))) = disposeRef a
  /\ releases (snd (step id a (pc, ev))) = [].
Proof.
  intros Hev. destruct ev; try discriminate.
  - repeat split.
  - destruct candidate; repeat split.
  - rewrite step_message.
    destruct (data_description data) as [d|] eqn:Hd.
    + rewrite (exec_onmessage_description id pc data d a Hd). cbv zeta.
      repeat match goal with
        | |- context [if ?b then _ else _] => destruct b
        end; repeat split.
    + unfold exec, start, onmessage, onmessage_candidate,
        addIceCandidate_catch, bind, read.
      rewrite Hd. cbn.
      repeat match goal with
        | |- context [data_candidate ?x] => destruct (data_candidate x)
        | |- context [candidate_throws ?x] => destruct (candidate_throws x)
        | |- context [negb (ignoreOffer ?x)] => destruct (ignoreOffer x) eqn:?
        end; repeat split.
  - rewrite step_settled. cbn [negotiation_event] in Hev.
    destruct (nth_error (suspended a) n) as [k|] eqn:Hn;
      [|rewrite (exec_settle_none id pc n r a Hn); repeat split].
    apply negb_true_iff in Hev.
    rewrite (exec_settle id pc n r a k Hn).
    pose proof (resume_engine_flags id pc k r a Hev) as (_ & Hre & Hrel & _).
    pose proof (resume_engine_frame id pc k r a Hev)
      as (next & a' & out & Heq & Hst & Hsr & Hdr & _).
    rewrite Heq in *. cbn [fst snd] in *. cbn.
    repeat split; assumption.
Qed.

Lemma negotiation_leaves_the_call_alone_witness :
  status
    (fst (step "aaa" (Sample.ready "aaa")
            (Sample.signaling have_local_offer,
             message (Sample.description_from "bbb" Sample.offer2))))
  = calling.
Proof.
  apply (negotiation_leaves_the_call_alone "aaa"
           (Sample.signaling have_local_offer) (Sample.ready "aaa")
           (message (Sample.description_from "bbb" Sample.offer2))).
  reflexivity.
Defined.

(* ================================================================== *)
(** ** Reactions and what is rendered *)
(* ================================================================== *)

Lemma lastReaction_last (l : list string) (data : string) :
  lastReaction (l ++ [data]) = Some data.
Proof.
  unfold lastReaction. destruct (l ++ [data]) eqn:Heq.
  - now destruct l.
  - rewrite <- Heq, length_app. simpl.
    replace (List.length l + 1 - 1) with (List.length l) by lia.
    apply nth_error_last.
Qed.

(** X15: the reactions shown.  Messages on data channels add to
    [reactions] exactly the data that came on a channel labelled
    "reactions", in order, and make no call; a message on such a channel
    becomes the last reaction at once, one on another channel changes
    nothing; [onDisconnect] leaves no last reaction. *)
Theorem reactions_are_collected
  (id : ParticipantId) (pc : Platform) (a : App) (evs : list (Platform * event)) :
  (forallb is_channel_message (map snd evs) = true ->
   reactions (fst (run id a evs)) = reactions a ++ reaction_data evs
   /\ snd (run id a evs) = [])
  /\ (forall data,
         lastReaction
           (reactions (fst (step id a (pc, channel_message "reactions" data))))
         = Some data)
  /\ (forall label data,
         String.eqb label "reactions" = false ->
         step id a (pc, channel_message label data) = (a, []))
  /\ lastReaction (reactions (fst (exec onDisconnect a))) = None.
Proof.
  split; [|split; [|split]].
  - revert a. induction evs as [|[pc' ev] evs IH]; intros a Hevs.
    + simpl. now rewrite app_nil_r.
    + simpl in Hevs. apply andb_true_iff in Hevs as [Hev Hevs].
      destruct ev; try discriminate.
      rewrite run_cons.
      destruct (IH (fst (step id a (pc', channel_message label data))) Hevs)
        as [IH1 IH2].
      cbn [fst snd]. rewrite IH1, IH2. cbn [reaction_data].
      unfold step, exec, handle, ondatachannel. cbn.
      destruct (String.eqb label "reactions"); cbn; [|now split].
      now rewrite <- app_assoc.
  - intros data. cbn. apply lastReaction_last.
  - intros label data Hl.
    unfold step, exec, handle, ondatachannel. cbn. now rewrite Hl.
  - destruct (onDisconnect_frame a) as (_ & _ & _ & -> & _). reflexivity.
Qed.

Lemma reactions_are_collected_witness :
  reactions
    (fst (run "aaa" (Sample.ready "aaa")
            [(Sample.platform, channel_message "reactions" "a");
             (Sample.platform, channel_message "chat" "b");
             (Sample.platform, channel_message "reactions" "c")]))
  = ["a"; "c"]
  /\ snd (run "aaa" (Sample.ready "aaa")
            [(Sample.platform, channel_message "reactions" "a");
             (Sample.platform, channel_message "chat" "b");
             (Sample.platform, channel_message "reactions" "c")])
     = [].
Proof.
  apply (reactions_are_collected "aaa" Sample.platform (Sample.ready "aaa")
           [(Sample.platform, channel_message "reactions" "a");
            (Sample.platform, channel_message "chat" "b");
            (Sample.platform, channel_message "reactions" "c")]).
  reflexivity.
Defined.

Section Rendered.

Variable styles : string -> string.

Lemma in_emojis (reaction : string) :
  existsb (fun b : string * event => String.eqb (fst b) reaction)
    (map (fun r => (r, click_reaction r)) emojis)
  = existsb (String.eqb reaction) emojis.
Proof.
  induction emojis as [|e l IH]; [reflexivity|].
  simpl. now rewrite IH, (String.eqb_sym e reaction).
Qed.

Lemma clickable_cases (a : App) (ev : event) :
  clickable styles a ev
  = match status a, ev with
    | idle, click_StartCall => true
    | in_progress, click_EndCall => true
    | in_progress, click_reaction reaction => existsb (String.eqb reaction) emojis
    | _, _ => false
    end.
Proof.
  unfold clickable, render.
  destruct (status a); destruct ev; try reflexivity.
  cbn [CallScreen]. apply in_emojis.
Qed.

End Rendered.

(** X16: what the screen lets the user do.  "Start call" can be clicked
    exactly when the status is [idle] (while [calling] the button is
    rendered disabled, with the loading class); "End call" exactly when it
    is [in_progress]; a reaction exactly when it is [in_progress] and the
    reaction is one of the five emojis.  A click on "Start call" therefore
    disables the button in the same step, and [onDisconnect] brings the
    enabled button back. *)
Theorem screen_offers
  (styles : string -> string) (id : ParticipantId) (pc : Platform) (a : App)
  (reaction : string) :
  (clickable styles a click_StartCall = true <-> status a = idle)
  /\ (clickable styles a click_EndCall = true <-> status a = in_progress)
  /\ (clickable styles a (click_reaction reaction) = true
      <-> status a = in_progress /\ In reaction emojis)
  /\ render styles (fst (step id a (pc, click_StartCall)))
     = IdleScreen_view "Welcome!"
         {| disabled := true;
            className :=
              (styles "button" ++ " " ++ styles "primary" ++ " "
               ++ styles "loading")%string;
            children := "Start call";
            onClick := click_StartCall |}
  /\ clickable styles (fst (step id a (pc, click_StartCall))) click_StartCall
     = false
  /\ clickable styles (fst (exec onDisconnect a)) click_StartCall = true.
Proof.
  rewrite !clickable_cases.
  split; [|split; [|split; [|split; [|split]]]].
  - destruct (status a); split; congruence.
  - destruct (status a); split; congruence.
  - assert (Hin : existsb (String.eqb reaction) emojis = true <-> In reaction emojis).
    { rewrite existsb_exists. split.
      - intros (x & Hx & Heq). apply String.eqb_eq in Heq. now subst.
      - intros H. exists reaction. split; [assumption | apply String.eqb_refl]. }
    destruct (status a); rewrite <- ?Hin; split; try congruence;
      try (intros [H _]; congruence); auto.
    now intros [_ H].
  - reflexivity.
  - reflexivity.
  - now rewrite onDisconnect_status.
Qed.

(* ================================================================== *)
(** ** Reactions during a call *)
(* ================================================================== *)

Section Held.

Variable id : ParticipantId.

Lemma call_held_ok_frame (a a' : App) :
  status a' = status a ->
  sendReactionRef a' = sendReactionRef a ->
  disposeRef a' = disposeRef a ->
  call_held_ok a = true -> call_held_ok a' = true.
Proof.
  unfold call_held_ok, held. now intros -> -> ->.
Qed.

Lemma call_held_ok_onDisconnect (a : App) :
  call_held_ok (fst (exec onDisconnect a)) = true.
Proof.
  unfold call_held_ok, held.
  rewrite onDisconnect_status, (proj1 (onDisconnect_refs a)). reflexivity.
Qed.

Lemma call_held_ok_resume (pc : Platform) (k : cont) (r : settlement) (a : App) :
  call_held_ok a = true ->
  call_held_ok (snd (fst (resume id pc k r a))) = true.
Proof.
  intros H. destruct (is_onStartCall k) eqn:Hk.
  - destruct k; try discriminate; destruct r as [[ |d'|ws'|tracks]|];
      cbn [resume onStartCall_resume]; try assumption;
      rewrite ?onStartCall_catch_eq; cbn [fst snd];
      try apply call_held_ok_onDisconnect.
    rewrite onStartCall_setup_eq.
    destruct (setup_throws pc) as [[ | |j]|];
      try destruct (Nat.ltb j (List.length tracks));
      cbn [fst snd]; try apply call_held_ok_onDisconnect;
      unfold call_held_ok, held; cbn; now destruct (status a).
  - destruct (resume_engine_frame id pc k r a Hk)
      as (next & a' & out & -> & Hst & Hs & Hd & _).
    cbn [fst snd]. now apply (call_held_ok_frame a a').
Qed.

Lemma call_held_ok_step (a : App) (pc : Platform) (ev : event) :
  (is_track ev = true -> held a = true) ->
  call_held_ok a = true ->
  call_held_ok (fst (step id a (pc, ev))) = true.
Proof.
  intros Hheld H. destruct ev.
  - unfold call_held_ok, held in *. cbn.
    apply andb_true_iff in H as [_ H]. exact H.
  - apply call_held_ok_onDisconnect.
  - unfold step, exec, handle, onReaction, bind, read. cbn.
    now destruct (sendReactionRef a).
  - exact H.
  - change (step id a (pc, iceconnectionstatechange))
      with (exec (oniceconnectionstatechange pc) a).
    rewrite exec_oniceconnectionstatechange.
    destruct (iceConnectionState pc); try exact H.
    apply call_held_ok_onDisconnect.
  - destruct candidate; exact H.
  - specialize (Hheld eq_refl). unfold call_held_ok, held in *. cbn.
    apply andb_true_iff in H as [_ H].
    destruct (disposeRef a); [|discriminate]. exact H.
  - unfold step, exec, handle, ondatachannel. cbn.
    destruct (String.eqb label "reactions"); exact H.
  - rewrite step_message.
    destruct (data_description data) as [d|] eqn:Hd.
    + rewrite (exec_onmessage_description id pc data d a Hd). cbv zeta.
      repeat match goal with
        | |- context [if ?b then _ else _] => destruct b
        end; exact H.
    + unfold exec, start, onmessage, onmessage_candidate,
        addIceCandidate_catch, bind, read.
      rewrite Hd. cbn.
      repeat match goal with
        | |- context [data_candidate ?x] => destruct (data_candidate x)
        | |- context [candidate_throws ?x] => destruct (candidate_throws x)
        | |- context [negb (ignoreOffer ?x)] => destruct (ignoreOffer x) eqn:?
        end; exact H.
  - rewrite step_settled.
    destruct (nth_error (suspended a) n) as [k|] eqn:Hn.
    + rewrite (exec_settle id pc n r a k Hn).
      pose proof (call_held_ok_resume pc k r a H) as Hres.
      destruct (resume id pc k r a) as [[next a'] out]. exact Hres.
    + now rewrite (exec_settle_none id pc n r a Hn).
Qed.

Lemma call_held_ok_run (evs : list (Platform * event)) :
  forall a,
    track_while_held id a evs = true ->
    call_held_ok a = true ->
    call_held_ok (fst (run id a evs)) = true.
Proof.
  induction evs as [|[pc ev] evs IH]; intros a Hevs Ha; [exact Ha|].
  cbn [track_while_held] in Hevs. apply andb_true_iff in Hevs as [Hev Hevs].
  rewrite run_cons. cbn [fst]. apply IH; [exact Hevs|].
  apply call_held_ok_step; [|exact Ha].
  intros Ht. cbn [snd] in Hev. rewrite Ht in Hev.
  unfold held. now destruct (disposeRef a).
Qed.

End Held.

(** X17: as long as [track] fires only on a peer connection the component
    holds, a status of [in_progress] means the call's resources and its
    send function are in place: a click on a reaction of the call screen
    always reaches [dataChannel.send], on the data channel of the call set
    up last, and changes nothing else. *)
Theorem reaction_reaches_the_data_channel
  (id : ParticipantId) (evs : list (Platform * event)) :
  track_while_held id initial evs = true ->
  status (fst (run id initial evs)) = in_progress ->
  exists dataChannel,
    sendReactionRef (fst (run id initial evs)) = Some dataChannel
    /\ forall pc reaction,
         step id (fst (run id initial evs)) (pc, click_reaction reaction)
         = (fst (run id initial evs), [dataChannel_send dataChannel reaction]).
Proof.
  intros Hevs Hst.
  pose proof (call_held_ok_run id evs initial Hevs eq_refl) as H.
  set (a := fst (run id initial evs)) in *.
  unfold call_held_ok, held in H. rewrite Hst in H.
  destruct (disposeRef a); [|discriminate].
  destruct (sendReactionRef a) as [dc|] eqn:Hs; [|discriminate].
  exists dc. split; [reflexivity|].
  intros pc reaction.
  unfold step, exec, handle, onReaction, bind, read. cbn.
  now rewrite Hs.
Qed.

Lemma reaction_reaches_the_data_channel_witness :
  exists dataChannel,
    sendReactionRef
      (fst (run "aaa" initial (Sample.setup ++ [(Sample.platform, track)])))
    = Some dataChannel
    /\ forall pc reaction,
         step "aaa"
           (fst (run "aaa" initial (Sample.setup ++ [(Sample.platform, track)])))
           (pc, click_reaction reaction)
         = (fst (run "aaa" initial (Sample.setup ++ [(Sample.platform, track)])),
            [dataChannel_send dataChannel reaction]).
Proof.
  apply (reaction_reaches_the_data_channel "aaa"
           (Sample.setup ++ [(Sample.platform, track)]));
    reflexivity.
Defined.

(* ================================================================== *)
(** ** Two offers that cross *)
(* ================================================================== *)

(** X18: two peers whose hosts collate alike and do not compare the two
    ids as equal, each in collision (making an offer, or not in the stable
    state) when the other's offer arrives.  Exactly one of them sets
    [ignoreOffer] and applies nothing of the offer it got; the other one
    rolls back and applies the offer it got.  Which one ignores is decided
    by how the hosts order the two ids. *)
Theorem crossing_offers_are_resolved
  (idA idB : ParticipantId) (pcA pcB : Platform) (a b : App)
  (dA dB : RTCSessionDescription) :
  collator pcA = collator pcB ->
  localeCompare (collator pcA) idA idB <> 0%Z ->
  type dA = offer ->
  type dB = offer ->
  makingOffer a || negb (is_stable (signalingState pcA)) = true ->
  makingOffer b || negb (is_stable (signalingState pcB)) = true ->
  let atA := step idA a (pcA, message {| data_id := idB;
                                         data_description := Some dB;
                                         data_candidate := None |}) in
  let atB := step idB b (pcB, message {| data_id := idA;
                                         data_description := Some dA;
                                         data_candidate := None |}) in
  ignoreOffer (fst atA) = negb (ignoreOffer (fst atB))
  /\ ignoreOffer (fst atA) = negb (polite (collator pcA) idB idA)
  /\ (ignoreOffer (fst atA) = true ->
      (forall c, In c (snd atA) -> c = createOffer)
      /\ snd atB = [setLocalDescription rollback_description;
                    setRemoteDescription dA])
  /\ (ignoreOffer (fst atB) = true ->
      (forall c, In c (snd atB) -> c = createOffer)
      /\ snd atA = [setLocalDescription rollback_description;
                    setRemoteDescription dB]).
Proof.
  intros Hhost Hne HtA HtB HcA HcB atA atB. subst atA atB.
  rewrite !step_message.
  rewrite (exec_onmessage_description idA pcA
             {| data_id := idB; data_description := Some dB;
                data_candidate := None |} dB a eq_refl).
  rewrite (exec_onmessage_description idB pcB
             {| data_id := idA; data_description := Some dA;
                data_candidate := None |} dA b eq_refl).
  cbn [data_id]. rewrite HtA, HtB, HcA, HcB. rewrite <- Hhost.
  assert (Hopp : polite (collator pcA) idA idB
                 = negb (polite (collator pcA) idB idA)).
  { rewrite (polite_opposite (collator pcA) idA idB Hne).
    now rewrite negb_involutive. }
  rewrite Hopp.
  cbn [RTCSdpType_eqb andb]. rewrite !andb_true_r, negb_involutive.
  destruct (polite (collator pcA) idB idA); cbn [negb].
  - destruct (makingOffer b); cbn;
      (split; [reflexivity|]); (split; [reflexivity|]);
      (split; [discriminate|]); intros _; (split; [|reflexivity]).
    + intros c [].
    + intros c [<-|[]]. reflexivity.
  - destruct (makingOffer a); cbn;
      (split; [reflexivity|]); (split; [reflexivity|]);
      (split; [|discriminate]); intros _; (split; [|reflexivity]).
    + intros c [].
    + intros c [<-|[]]. reflexivity.
Qed.

Lemma crossing_offers_are_resolved_witness :
  ignoreOffer
    (fst (step Sample.idA (Sample.offered Sample.idA)
            (Sample.danish have_local_offer,
             message {| data_id := Sample.idB;
                        data_description := Some Sample.offer2;
                        data_candidate := None |})))
  = negb
      (ignoreOffer
         (fst (step Sample.idB (Sample.offered Sample.idB)
                 (Sample.danish have_local_offer,
                  message {| data_id := Sample.idA;
                             data_description := Some Sample.offer1;
                             data_candidate := None |})))).
Proof.
  apply (crossing_offers_are_resolved Sample.idA Sample.idB
           (Sample.danish have_local_offer)
           (Sample.danish have_local_offer)
           (Sample.offered Sample.idA) (Sample.offered Sample.idB)
           Sample.offer1 Sample.offer2);
    try reflexivity.
  vm_compute. discriminate.
Defined.
